(** * codenamesgreen: the game API handler

    A shallow embedding of [gameapi/handler.go].  Every HTTP handler is a
    function from the server state (the value behind [*handler]) and the
    decoded request body to a response and the next server state.  The
    handlers run their critical sections under [h.mu] and [g.mu]; one call
    of a handler function below is one such critical section, so a run of
    the server is a sequence of calls.

    [game.go] (the [Game] type and its methods) and the Go libraries
    [math/rand], [strings] and [time] are not part of [handler.go]:
    - the random source is the interface [Rand];
    - the constants of [game.go] are the interface [GameConsts];
    - the methods of [Game] are modelled from the specification, each
      marked as such. *)

From Stdlib Require Import ZArith Permutation.
From stdpp Require Import base strings list gmap fin_maps sorting pretty.

Set Default Proof Using "Type".

(** ** Time *)

(** [time.Time] and [time.Duration] as integer nanoseconds. *)
Abbreviation Time := Z (only parsing).

Definition Minute : Z := 60 * 1000000000.
Definition Hour : Z := 60 * Minute.

(** [t.Add(d)] and [t.After(u)]. *)
Definition Add (t : Time) (d : Z) : Time := (t + d)%Z.
Definition After (t u : Time) : bool := bool_decide (u < t)%Z.

(** ** The libraries behind the handler *)

(** [rand.Rand]: a source that is threaded through the draws.  [Int63n]
    and [Intn] return a value in [[0, n)] for a positive [n]; the handler
    guards the call where Go would panic on [n <= 0]. *)
Class Rand (Source : Type) := {
  NewSource : Z → Source;
  Int63 : Source → Z * Source;
  Int63n : Source → Z → Z * Source;
  Intn : Source → nat → nat * Source;
  Int63n_range : ∀ s n, (0 < n)%Z → (0 ≤ (Int63n s n).1 < n)%Z;
  Intn_range : ∀ s n, 0 < n → (Intn s n).1 < n;
}.

(** The package-level constants of [game.go]: the color distribution of a
    board and the idle time after which a player is pruned. *)
Class GameConsts (Color : Type) := {
  colorDistribution : list Color;
  idleThreshold : Z;
}.

(** ** Data model *)

Record Player := mkPlayer {
  LastSeen : Time;
  PlayerTeam : Z;
  PlayerName : string;
}.

(** [Event]: the fields the handler fills in, the sequence number that
    [addEvent] assigns and the tile index of a guess. *)
Record Event := mkEvent {
  Number : Z;
  Type_ : string;
  Team : Z;
  PlayerID : string;
  Name : string;
  Message : string;
  Index : Z;
}.

Record Tile (Color : Type) := mkTile {
  Word : string;
  TileColor : Color;
  Revealed : bool;
}.
Arguments mkTile {Color} _ _ _.
Arguments Word {Color} _.
Arguments TileColor {Color} _.
Arguments Revealed {Color} _.

(** [GameState], the compact state a game is rebuilt from. *)
Record GameState := mkGameState {
  StateSeed : Z;
  StateWords : list string;
}.

(** [Game].  [eventsCh] is the notification channel; a channel is named by
    its generation number, and the channels of all earlier generations are
    closed. *)
Record Game (Color : Type) := mkGame {
  Seed : Z;
  WordSet : list string;
  Tiles : list (Tile Color);
  Events : list Event;
  CreatedAt : Time;
  players : gmap string Player;
  eventsCh : nat;
}.
Arguments mkGame {Color} _ _ _ _ _ _ _.
Arguments Seed {Color} _.
Arguments WordSet {Color} _.
Arguments Tiles {Color} _.
Arguments Events {Color} _.
Arguments CreatedAt {Color} _.
Arguments players {Color} _.
Arguments eventsCh {Color} _.

(** [strings.ToLower]. *)
Class Strings := {
  ToLower : string → string;
}.

(** Field updates of a [Game]. *)
Definition set_Tiles {Color} (ts : list (Tile Color)) (g : Game Color) : Game Color :=
  mkGame (Seed g) (WordSet g) ts (Events g) (CreatedAt g) (players g) (eventsCh g).
Definition set_Events {Color} (es : list Event) (g : Game Color) : Game Color :=
  mkGame (Seed g) (WordSet g) (Tiles g) es (CreatedAt g) (players g) (eventsCh g).
Definition set_CreatedAt {Color} (t : Time) (g : Game Color) : Game Color :=
  mkGame (Seed g) (WordSet g) (Tiles g) (Events g) t (players g) (eventsCh g).
Definition set_players {Color} (ps : gmap string Player) (g : Game Color) : Game Color :=
  mkGame (Seed g) (WordSet g) (Tiles g) (Events g) (CreatedAt g) ps (eventsCh g).
Definition set_eventsCh {Color} (ch : nat) (g : Game Color) : Game Color :=
  mkGame (Seed g) (WordSet g) (Tiles g) (Events g) (CreatedAt g) (players g) ch.

(** ** Board generation *)

Section Board.
Context {Source : Type} `{!Rand Source}.

(** [Perm] of [rand.Rand]: [m := make([]int, n)], then for every [i] draw
    [j := r.Intn(i + 1)] and set [m[i] = m[j]; m[j] = i]. *)
Fixpoint perm_loop (k i : nat) (m : list nat) (r : Source) : list nat * Source :=
  match k with
  | O => (m, r)
  | S k' =>
      let '(j, r') := Intn r (S i) in
      let m1 := <[i := default 0 (m !! j)]> m in
      let m2 := <[j := i]> m1 in
      perm_loop k' (S i) m2 r'
  end.

Definition Perm (r : Source) (n : nat) : list nat * Source :=
  perm_loop n 0 (replicate n 0) r.

(** The elements of [l] at the indices [p], in the order of [p]. *)
Definition pick {A} (p : list nat) (l : list A) : list A :=
  omap (λ i, l !! i) p.

End Board.

(** ** The methods of [Game] *)

Section Game.
Context {Source : Type} `{!Rand Source} {Color : Type} `{!GameConsts Color}.

(** Modelled from the spec: [NewState] of [game.go], the compact state of
    a game: its seed and the word list it draws from. *)
Definition NewState (seed : Z) (words : list string) : GameState :=
  mkGameState seed words.

(** Modelled from the spec: the word half of the board generator of
    [game.go]: a shuffle of the word indices, of which the first
    [len(colorDistribution)] are taken. *)
Definition boardWords (rnd : Source) (words : list string) : list string * Source :=
  let '(p, rnd') := Perm rnd (length words) in
  (pick (take (length colorDistribution) p) words, rnd').

(** Modelled from the spec: the color half of the board generator of
    [game.go]: a shuffle of [colorDistribution] with the same source. *)
Definition boardColors (rnd : Source) : list Color * Source :=
  let '(p, rnd') := Perm rnd (length colorDistribution) in
  (pick p colorDistribution, rnd').

(** Modelled from the spec: [ReconstructGame] of [game.go].  The source is
    seeded from the seed of the state alone; words and colors are zipped by
    position; the new game has no event, no player and a fresh channel. *)
Definition ReconstructGame (state : GameState) : Game Color :=
  let rnd := NewSource (StateSeed state) in
  let '(ws, rnd1) := boardWords rnd (StateWords state) in
  let '(cs, _) := boardColors rnd1 in
  {| Seed := StateSeed state;
     WordSet := StateWords state;
     Tiles := zip_with (λ w c, mkTile w c false) ws cs;
     Events := [];
     CreatedAt := 0;
     players := ∅;
     eventsCh := 0 |}.

(** Modelled from the spec: [markSeen] of [game.go], the upsert of the
    player's entry. *)
Definition markSeen (playerID name : string) (team : Z) (now : Time)
    (g : Game Color) : Game Color :=
  set_players (<[playerID := mkPlayer now team name]> (players g)) g.

(** Modelled from the spec: [notifyAll] of [game.go]: the current channel
    is closed, which wakes every waiter, and a fresh one is installed. *)
Definition notifyAll (g : Game Color) : Game Color :=
  set_eventsCh (S (eventsCh g)) g.

(** Modelled from the spec: [addEvent] of [game.go]: the event gets the
    next sequence number, is appended, and the waiters are released. *)
Definition addEvent (evt : Event) (g : Game Color) : Game Color :=
  let evt' := mkEvent (Z.of_nat (length (Events g)) + 1) (Type_ evt) (Team evt)
                      (PlayerID evt) (Name evt) (Message evt) (Index evt) in
  notifyAll (set_Events (Events g ++ [evt']) g).

(** Modelled from the spec: [eventsSince] of [game.go]: the events whose
    sequence number is greater than [lastSeen], with the current channel. *)
Definition eventsSince (lastSeen : Z) (g : Game Color) : list Event * nat :=
  (filter (λ e, (lastSeen < Number e)%Z) (Events g), eventsCh g).

Definition reveal (t : Tile Color) : Tile Color :=
  mkTile (Word t) (TileColor t) true.

(** Modelled from the spec: [guess] of [game.go]: an index outside the
    board is rejected without a change; otherwise the player is marked
    seen, the tile is revealed and a guess event is appended.  The result
    says whether the guess was accepted. *)
Definition guess (playerID name : string) (team index : Z) (now : Time)
    (g : Game Color) : bool * Game Color :=
  if bool_decide (0 ≤ index < Z.of_nat (length (Tiles g)))%Z then
    let g1 := markSeen playerID name team now g in
    let g2 := set_Tiles (alter reveal (Z.to_nat index) (Tiles g1)) g1 in
    (true, addEvent (mkEvent 0 "guess" team playerID name "" index) g2)
  else (false, g).

(** Modelled from the spec: [pruneOldPlayers] of [game.go]: the players
    last seen more than [idleThreshold] before [now] are removed; the
    result is the number of players that remain. *)
Definition pruneOldPlayers (now : Time) (g : Game Color) : Z * Game Color :=
  let ps := filter (λ kv, ¬ (idleThreshold < now - LastSeen kv.2)%Z) (players g) in
  (Z.of_nat (size ps), set_players ps g).

End Game.

(** ** Requests and responses *)

(** The body of the action endpoints ([/guess], [/end-turn], [/chat],
    [/events], [/ping]), under its JSON field names.  A field that an
    endpoint does not decode is not read by its handler; a field missing
    from the JSON object has Go's zero value. *)
Record Body := mkBody {
  game_id : string;
  seed : Z;
  player_id : string;
  name : string;
  team : Z;
  index : Z;
  message : string;
  last_event : Z;
}.

(** The body of [/new-game]; [prev_seed] is a pointer, [None] is [nil]. *)
Record NewGameBody := mkNewGameBody {
  new_game_id : string;
  words : list string;
  prev_seed : option Z;
}.

(** What a handler writes: [writeError], or [writeJSON] of one of the
    response values. *)
Inductive Response (Color : Type) :=
| JSONError (code msg : string) (statusCode : Z)
| JSONStatus (status : string)
| JSONGame (g : Game Color)
| JSONUpdate (update_seed : Z) (update_events : list Event)
| JSONIndex (autogenerated_id : string)
| JSONStats (active_games active_players : Z).
Arguments JSONError {Color} _ _ _.
Arguments JSONStatus {Color} _.
Arguments JSONGame {Color} _.
Arguments JSONUpdate {Color} _ _.
Arguments JSONIndex {Color} _.
Arguments JSONStats {Color} _ _.

(** A call that may panic, or run longer than the fuel it is given. *)
Inductive Outcome (A : Type) :=
| Done (a : A)
| Panic
| OutOfFuel.
Arguments Done {A} _.
Arguments Panic {A}.
Arguments OutOfFuel {A}.

(** The first half of an events poll either answers or waits on a channel,
    holding the seed it read. *)
Inductive Poll (Color : Type) :=
| Respond (r : Response Color)
| Wait (held_seed : Z) (ch : nat).
Arguments Respond {Color} _.
Arguments Wait {Color} _ _.

(** What ends the wait of an events poll: the channel, the client, or the
    25 second timer. *)
Inductive Wake := Signalled | Cancelled | TimedOut.

(** ** The handler *)

Record handler (Source Color : Type) := mkHandler {
  wordLists : gmap string (list string);
  allWords : list string;
  rand : Source;
  games : gmap string (Game Color);
}.
Arguments mkHandler {Source Color} _ _ _ _.
Arguments wordLists {Source Color} _.
Arguments allWords {Source Color} _.
Arguments rand {Source Color} _.
Arguments games {Source Color} _.

Definition set_rand {Source Color} (r : Source) (h : handler Source Color) :
    handler Source Color :=
  mkHandler (wordLists h) (allWords h) r (games h).
Definition set_games {Source Color} (gs : gmap string (Game Color))
    (h : handler Source Color) : handler Source Color :=
  mkHandler (wordLists h) (allWords h) (rand h) gs.

(** The order of [sort.Strings]. *)
Definition string_le (x y : string) : Prop := String.leb x y = true.

#[global] Instance string_le_dec x y : Decision (string_le x y).
Proof. unfold string_le. apply _. Defined.

(** The loop of [Handler] that collects the words of all lists, each once. *)
Definition collectWord (acc : list string * gset string) (w : string) :
    list string * gset string :=
  if decide (w ∈ acc.2) then acc else (acc.1 ++ [w], {[w]} ∪ acc.2).

Section Handler.
Context {Source : Type} `{!Rand Source} {Color : Type} `{!GameConsts Color}.
Context `{!Strings}.

#[local] Abbreviation handler := (handler Source Color).
#[local] Abbreviation Response := (Response Color).

(** [Handler]: the combined, sorted word list, a source seeded from the
    clock, and no game. *)
Definition Handler (wordLists : gmap string (list string)) (now : Time) : handler :=
  let all := (foldl collectWord ([], ∅) (concat (map_to_list wordLists).*2)).1 in
  {| wordLists := wordLists;
     allWords := merge_sort string_le all;
     rand := NewSource now;
     games := ∅ |}.

(** One game of the periodic sweep: [now] is the tick, [now'] the clock at
    the age check.  [None] is [delete(h.games, id)]. *)
Definition sweepGame (now now' : Time) (g : Game Color) : option (Game Color) :=
  let '(remaining, g') := pruneOldPlayers now g in
  if bool_decide (0 < remaining)%Z then Some g'
  else if After (Add (CreatedAt g') (24 * Hour)) now' then Some g'
  else None.

(** One run of the sweep; [clock id] is the clock when [id] is visited. *)
Definition sweep (now : Time) (clock : string → Time) (h : handler) : handler :=
  set_games (map_imap (λ id g, sweepGame now (clock id) g) (games h)) h.

Definition malformed_body : Response :=
  JSONError "malformed_body" "Unable to parse request body." 400.
Definition not_found : Response :=
  JSONError "not_found" "Game not found" 404.
Definition bad_seed : Response :=
  JSONError "bad_seed" "Request intended for a different game seed." 400.
Definition too_few_words : Response :=
  JSONError "too_few_words"
    ("A word list must have at least " +:+ pretty (length colorDistribution) +:+ " words.")
    400.
Definition status_ok : Response := JSONStatus "ok".

(** The loop of [handleIndex].  The [id] it builds is declared inside the
    loop body with [:=], so it is a variable of the body and is gone when
    the loop is left; the loop hands back the source only. *)
Fixpoint indexLoop (fuel : nat) (h : handler) (r : Source) : Outcome Source :=
  match fuel with
  | O => OutOfFuel
  | S fuel' =>
      let n := Z.of_nat (length (allWords h)) in
      if bool_decide (n ≤ 0)%Z then Panic else
      let '(i1, r1) := Int63n r n in
      match allWords h !! Z.to_nat i1 with
      | None => Panic
      | Some x1 =>
          let w1 := ToLower x1 in
          let '(i2, r2) := Int63n r1 n in
          match allWords h !! Z.to_nat i2 with
          | None => Panic
          | Some x2 =>
              let w2 := ToLower x2 in
              let id := w1 +:+ "-" +:+ w2 in
              match games h !! id with
              | None => Done r2
              | Some _ => indexLoop fuel' h r2
              end
          end
      end
  end.

(** POST /index *)
Definition handleIndex (fuel : nat) (h : handler) : Outcome (Response * handler) :=
  let id := "" in
  match indexLoop fuel h (rand h) with
  | Done r => Done (JSONIndex id, set_rand r h)
  | Panic => Panic
  | OutOfFuel => OutOfFuel
  end.

(** The guard of [handleNewGame] against a delayed request:
    [body.PrevSeed == nil || *body.PrevSeed != oldGame.Seed]. *)
Definition stalePrevSeed (prev : option Z) (oldGame : Game Color) : bool :=
  match prev with
  | None => true
  | Some s => bool_decide (s ≠ Seed oldGame)
  end.

(** The players carried into the new game: the last-seen time only. *)
Definition carryPlayers (old : gmap string Player) (game : Game Color) : Game Color :=
  set_players
    (map_fold (λ id p ps, <[id := mkPlayer (LastSeen p) 0 ""]> ps) (players game) old)
    game.

(** POST /new-game.  On a reset [oldGame.notifyAll()] closes the channel of
    the old game; the old game leaves the registry with the same call, so
    the registry shows nothing of it. *)
Definition handleNewGame (now : Time) (req : option NewGameBody) (h : handler) :
    Response * handler :=
  match req with
  | None => (malformed_body, h)
  | Some body =>
      if decide (new_game_id body = "") then (malformed_body, h) else
      let oldGame := games h !! new_game_id body in
      let create :=
        let ws := if decide (length (words body) = 0) then allWords h else words body in
        if decide (length ws < length colorDistribution) then (too_few_words, h) else
        let '(s, r) := Int63 (rand h) in
        let game := ReconstructGame (NewState s ws) in
        let game := match oldGame with
                    | Some og => carryPlayers (players og) game
                    | None => game
                    end in
        let g := set_CreatedAt now game in
        (JSONGame g, set_games (<[new_game_id body := g]> (games h)) (set_rand r h)) in
      match oldGame with
      | Some og => if stalePrevSeed (prev_seed body) og then (JSONGame og, h) else create
      | None => create
      end
  end.

(** POST /guess; [now] and [now'] are the two readings of the clock. *)
Definition handleGuess (now now' : Time) (req : option Body) (h : handler) :
    Response * handler :=
  match req with
  | None => (malformed_body, h)
  | Some body =>
      if decide (game_id body = "" ∨ team body = 0%Z ∨ player_id body = "")
      then (malformed_body, h) else
      match games h !! game_id body with
      | None => (not_found, h)
      | Some g =>
          if decide (seed body ≠ Seed g) then (bad_seed, h) else
          let g1 := markSeen (player_id body) (name body) (team body) now g in
          let g2 := (guess (player_id body) (name body) (team body) (index body) now' g1).2 in
          (status_ok, set_games (<[game_id body := g2]> (games h)) h)
      end
  end.

(** POST /end-turn *)
Definition handleEndTurn (now : Time) (req : option Body) (h : handler) :
    Response * handler :=
  match req with
  | None => (malformed_body, h)
  | Some body =>
      if decide (game_id body = "" ∨ team body = 0%Z ∨ player_id body = "")
      then (malformed_body, h) else
      match games h !! game_id body with
      | None => (not_found, h)
      | Some g =>
          if decide (seed body ≠ Seed g) then (bad_seed, h) else
          let g1 := markSeen (player_id body) (name body) (team body) now g in
          let g2 := addEvent (mkEvent 0 "end_turn" (team body) (player_id body)
                                      (name body) "" 0) g1 in
          (status_ok, set_games (<[game_id body := g2]> (games h)) h)
      end
  end.

(** POST /chat *)
Definition handleChat (now : Time) (req : option Body) (h : handler) :
    Response * handler :=
  match req with
  | None => (malformed_body, h)
  | Some body =>
      if decide (game_id body = "" ∨ team body = 0%Z ∨ player_id body = ""
                 ∨ message body = "")
      then (malformed_body, h) else
      match games h !! game_id body with
      | None => (not_found, h)
      | Some g =>
          if decide (seed body ≠ Seed g) then (bad_seed, h) else
          let g1 := markSeen (player_id body) (name body) (team body) now g in
          let g2 := addEvent (mkEvent 0 "chat" (team body) (player_id body)
                                      (name body) (message body) 0) g1 in
          (status_ok, set_games (<[game_id body := g2]> (games h)) h)
      end
  end.

(** POST /events, up to the [select]: an answer, or a wait on the channel
    that was read together with the empty list of events. *)
Definition handleEvents (now : Time) (req : option Body) (h : handler) :
    Poll Color * handler :=
  match req with
  | None => (Respond malformed_body, h)
  | Some body =>
      if decide (game_id body = "" ∨ player_id body = "")
      then (Respond malformed_body, h) else
      match games h !! game_id body with
      | None => (Respond not_found, h)
      | Some g =>
          let s := Seed g in
          if decide (seed body ≠ s) then
            let '(evts, _) := eventsSince (last_event body) g in
            (Respond (JSONUpdate s evts), h)
          else
            let g1 := markSeen (player_id body) (name body) (team body) now g in
            let '(evts, ch) := eventsSince (last_event body) g1 in
            let h' := set_games (<[game_id body := g1]> (games h)) h in
            if decide (0 < length evts) then (Respond (JSONUpdate s evts), h')
            else (Wait s ch, h')
      end
  end.

(** POST /events, from the [select] on: after the channel fired the game
    is looked up again; otherwise the held seed goes out with no event. *)
Definition handleEventsWake (w : Wake) (body : Body) (held : Z) (h : handler) : Response :=
  match w with
  | Signalled =>
      match games h !! game_id body with
      | None => not_found
      | Some g => JSONUpdate (Seed g) (eventsSince (last_event body) g).1
      end
  | Cancelled | TimedOut => JSONUpdate held []
  end.

(** POST /ping *)
Definition handlePing (now : Time) (req : option Body) (h : handler) :
    Response * handler :=
  match req with
  | None => (malformed_body, h)
  | Some body =>
      if decide (game_id body = "" ∨ player_id body = "")
      then (malformed_body, h) else
      match games h !! game_id body with
      | None => (not_found, h)
      | Some g =>
          if decide (seed body ≠ Seed g) then (bad_seed, h) else
          let g1 := markSeen (player_id body) (name body) (team body) now g in
          (status_ok, set_games (<[game_id body := g1]> (games h)) h)
      end
  end.

(** /stats *)
Definition handleStats (h : handler) : Response :=
  let '(gs, ps) :=
    map_fold (λ _ g '(gs, ps),
                let n := Z.of_nat (size (players g)) in
                ((if bool_decide (0 < n)%Z then gs + 1 else gs)%Z, (ps + n)%Z))
             (0%Z, 0%Z) (games h) in
  JSONStats gs ps.

(** ** Runs of the server *)

(** One critical section of the server. *)
Inductive Call :=
| CallIndex (fuel : nat)
| CallNewGame (now : Time) (req : option NewGameBody)
| CallGuess (now now' : Time) (req : option Body)
| CallEndTurn (now : Time) (req : option Body)
| CallChat (now : Time) (req : option Body)
| CallEvents (now : Time) (req : option Body)
| CallPing (now : Time) (req : option Body)
| CallStats
| CallSweep (now : Time) (clock : string → Time).

(** The data of the server after a call.  A call of [handleIndex] that
    panics or does not return leaves the data as it was; it does not
    release [h.mu], which [serve] below accounts for. *)
Definition after (c : Call) (h : handler) : handler :=
  match c with
  | CallIndex fuel =>
      match handleIndex fuel h with
      | Done (_, h') => h'
      | _ => h
      end
  | CallNewGame now req => (handleNewGame now req h).2
  | CallGuess now now' req => (handleGuess now now' req h).2
  | CallEndTurn now req => (handleEndTurn now req h).2
  | CallChat now req => (handleChat now req h).2
  | CallEvents now req => (handleEvents now req h).2
  | CallPing now req => (handlePing now req h).2
  | CallStats => h
  | CallSweep now clock => sweep now clock h
  end.

(** An event log is gap-free when its sequence numbers are 1, 2, 3, ... *)
Definition gap_free (es : list Event) : Prop :=
  Number <$> es = seqZ 1 (Z.of_nat (length es)).

(** The game objects of the server: a game is made by [handleNewGame]
    (rebuilt from a state, given the carried players and its creation
    time), and from then on changed under its lock by the methods that the
    handlers and the sweep call, in any order.  A game stays such an object
    when a reset has taken it out of the registry while a handler still
    holds it. *)
Inductive live : Game Color → Prop :=
| live_new st ps now :
    live (set_CreatedAt now (set_players ps (ReconstructGame st)))
| live_markSeen pid nm t now g :
    live g → live (markSeen pid nm t now g)
| live_guess pid nm t i now g :
    live g → live (guess pid nm t i now g).2
| live_addEvent e g :
    live g → live (addEvent e g)
| live_pruneOldPlayers now g :
    live g → live (pruneOldPlayers now g).2
| live_notifyAll g :
    live g → live (notifyAll g).

(** The states of the server: what [Handler] returns, and what a call
    makes of a state. *)
Inductive reachable : handler → Prop :=
| reachable_init wordLists now : reachable (Handler wordLists now)
| reachable_call c h : reachable h → reachable (after c h).

(** *** The draws of the handler's source *)

(** The sources that [r] becomes by the draws the handler makes of it:
    [Int63] in [handleNewGame], [Int63n] in [handleIndex]. *)
Inductive later (r : Source) : Source → Prop :=
| later_now : later r r
| later_Int63 r' : later (Int63 r).2 r' → later r r'
| later_Int63n n r' : later (Int63n r n).2 r' → later r r'.


(** *** The lock of the registry *)

(** The server with [h.mu].  Every code path unlocks [h.mu] before it
    returns, except in [handleIndex]: it locks without [defer], so a panic
    between [Lock] and [Unlock] leaves the lock held for good, and so does
    the loop for as long as it runs. *)
Record server := mkServer {
  srv : handler;
  mu_held : bool;
}.

(** Whether a call comes to [h.mu.Lock()]: a request that fails the check
    of its body returns before. *)
Definition takes_lock (c : Call) : bool :=
  match c with
  | CallIndex _ | CallStats | CallSweep _ _ => true
  | CallNewGame _ req =>
      match req with
      | Some b => bool_decide (new_game_id b ≠ "")
      | None => false
      end
  | CallGuess _ _ req | CallEndTurn _ req =>
      match req with
      | Some b => bool_decide (¬ (game_id b = "" ∨ team b = 0%Z ∨ player_id b = ""))
      | None => false
      end
  | CallChat _ req =>
      match req with
      | Some b => bool_decide (¬ (game_id b = "" ∨ team b = 0%Z ∨ player_id b = ""
                                  ∨ message b = ""))
      | None => false
      end
  | CallEvents _ req | CallPing _ req =>
      match req with
      | Some b => bool_decide (¬ (game_id b = "" ∨ player_id b = ""))
      | None => false
      end
  end.

(** What becomes of a call: it returns, it panics, it is still in the loop
    of [handleIndex] when the fuel is used up, or it waits for [h.mu]. *)
Inductive Fate := Returns | Panics | Spins | Blocks.

Definition fate (c : Call) (s : server) : Fate :=
  if mu_held s && takes_lock c then Blocks else
  match c with
  | CallIndex fuel =>
      match handleIndex fuel (srv s) with
      | Done _ => Returns
      | Panic => Panics
      | OutOfFuel => Spins
      end
  | _ => Returns
  end.

(** The server after a call: a call that returns leaves the lock as it
    found it; a call of [handleIndex] that panics holds it for good, and
    one that is still in its loop holds it for as long as the loop runs; a
    call that waits for the lock does nothing. *)
Definition serve (c : Call) (s : server) : server :=
  match fate c s with
  | Returns => mkServer (after c (srv s)) (mu_held s)
  | Panics | Spins => mkServer (srv s) true
  | Blocks => s
  end.

End Handler.

Arguments server : clear implicits.

(** ** A concrete server

    The scenario of the specification: a board of eight tiles, three of
    color [A], two of color [B] and three neutral ones, over a vocabulary
    of twenty words.  The source is a counter: [Int63] gives half of it, so
    that two draws in a row can coincide, as two draws of any source may. *)

Module Scenario.

Inductive Color := A | B | N.

#[export] Instance consts : GameConsts Color := {|
  colorDistribution := [A; A; A; B; B; N; N; N];
  idleThreshold := 50 * 1000000000;
|}.

#[export, refine] Instance counter : Rand Z := {|
  NewSource s := s;
  Int63 s := ((s `div` 2) `mod` 2 ^ 63, s + 1)%Z;
  Int63n s n := (s `mod` n, s + 1)%Z;
  Intn s n := (Z.to_nat (s `mod` Z.of_nat n), (s + 1)%Z);
|}.
Proof.
  - intros s n Hn. simpl. apply Z.mod_pos_bound. exact Hn.
  - intros s n Hn. simpl.
    pose proof (Z.mod_pos_bound s (Z.of_nat n) ltac:(lia)). lia.
Defined.

Definition lower (c : Ascii.ascii) : Ascii.ascii :=
  let n := Ascii.nat_of_ascii c in
  if bool_decide (65 ≤ n ≤ 90) then Ascii.ascii_of_nat (n + 32) else c.

Fixpoint lower_string (s : string) : string :=
  match s with
  | EmptyString => EmptyString
  | String c s' => String (lower c) (lower_string s')
  end.

#[export] Instance ascii_lower : Strings := {| ToLower := lower_string |}.

Definition vocabulary : list string :=
  ["Apple"; "Bridge"; "Castle"; "Dragon"; "Eagle"; "Forest"; "Garden";
   "Harbor"; "Island"; "Jungle"; "Kettle"; "Ladder"; "Mirror"; "Needle";
   "Orange"; "Piano"; "Queen"; "River"; "Shadow"; "Tunnel"].

Definition lists : gmap string (list string) := {[ "default" := vocabulary ]}.

(** The server at start, its source seeded at clock 14. *)
Definition h0 : handler Z Color := Handler lists 14.

Definition create (id : string) (ws : list string) (prev : option Z) : option NewGameBody :=
  Some (mkNewGameBody id ws prev).

(** The board of seed 7 over the vocabulary, created at clock 100. *)
Definition g1 : Game Color := set_CreatedAt 100 (ReconstructGame (NewState 7 vocabulary)).

(** The server after the session ["alpha"] was created at clock 100; the
    first draw of the source is 7. *)
Definition h1 : handler Z Color := after (CallNewGame 100 (create "alpha" [] None)) h0.

Definition act (id : string) (s : Z) (player : string) (t i : Z) (msg : string) (last : Z) :
    option Body :=
  Some (mkBody id s player "Ann" t i msg last).

(** ... and after Ann has guessed tile 2 at clock 200 and ended her turn at
    clock 300. *)
Definition h2 : handler Z Color :=
  after (CallEndTurn 300 (act "alpha" 7 "p1" 1 0 "" 0))
    (after (CallGuess 200 200 (act "alpha" 7 "p1" 1 2 "" 0)) h1).

(** The game of ["alpha"] in [h2]. *)
Definition g2 : Game Color :=
  addEvent (mkEvent 0 "end_turn" 1 "p1" "Ann" "" 0)
    (markSeen "p1" "Ann" 1 300
       (guess "p1" "Ann" 1 2 200 (markSeen "p1" "Ann" 1 200 g1)).2).

(** A day after the creation of ["alpha"], to the nanosecond. *)
Definition day_later : Time := 100 + 24 * Hour.

(** A second source for the same server: an odometer, whose [Int63] is the
    count itself, so that no draw comes twice. *)
#[export, refine] Instance odometer : Rand BinNums.N := {|
  NewSource s := Z.to_N s;
  Int63 s := (Z.of_N s, N.succ s);
  Int63n s n := ((Z.of_N s) `mod` n, N.succ s)%Z;
  Intn s n := (N.to_nat s `mod` n, N.succ s);
|}.
Proof.
  - intros s n Hn. simpl. apply Z.mod_pos_bound. exact Hn.
  - intros s n Hn. simpl. apply Nat.mod_upper_bound. lia.
Defined.



(** A server that was started without any word, its lock free. *)
Definition wordless : server Z Color := mkServer (Handler ∅ 0) false.

End Scenario.

(** * Properties *)

(** ** The shuffle *)

Section BoardFacts.
Context {Source : Type} `{!Rand Source}.












End BoardFacts.

(** ** The board *)

Section GameFacts.
Context {Source : Type} `{!Rand Source} {Color : Type} `{!GameConsts Color}.




Lemma ReconstructGame_Seed (st : GameState) : Seed (ReconstructGame st) = StateSeed st.
Proof.
  unfold ReconstructGame.
  destruct (boardWords _ _) as [ws rnd1]. destruct (boardColors _) as [cs rnd2].
  reflexivity.
Qed.

Lemma ReconstructGame_Events (st : GameState) : Events (ReconstructGame st) = [].
Proof.
  unfold ReconstructGame.
  destruct (boardWords _ _) as [ws rnd1]. destruct (boardColors _) as [cs rnd2].
  reflexivity.
Qed.



End GameFacts.

(** ** Invariants of the registry *)

Section HandlerFacts.
Context {Source : Type} `{!Rand Source} {Color : Type} `{!GameConsts Color}.
Context `{!Strings}.

#[local] Abbreviation handler := (handler Source Color).

Lemma markSeen_fields (pid nm : string) (t : Z) (now : Time) (g : Game Color) :
  Seed (markSeen pid nm t now g) = Seed g ∧
  Tiles (markSeen pid nm t now g) = Tiles g ∧
  Events (markSeen pid nm t now g) = Events g ∧
  CreatedAt (markSeen pid nm t now g) = CreatedAt g ∧
  eventsCh (markSeen pid nm t now g) = eventsCh g ∧
  players (markSeen pid nm t now g) = <[pid := mkPlayer now t nm]> (players g).
Proof. repeat split. Qed.


(** A property of games that every method of [Game] keeps, and that a new
    game has, holds of every game of the registry; and no game is
    registered under the empty id. *)
Lemma registry_invariant (P : Game Color → Prop) :
  (∀ st ps t, P (set_CreatedAt t (set_players ps (ReconstructGame st)))) →
  (∀ pid nm t now g, P g → P (markSeen pid nm t now g)) →
  (∀ pid nm t i now g, P g → P (guess pid nm t i now g).2) →
  (∀ e g, P g → P (addEvent e g)) →
  (∀ now g, P g → P (pruneOldPlayers now g).2) →
  ∀ h : handler, reachable h → map_Forall (λ id g, id ≠ "" ∧ P g) (games h).
Proof.
  intros Hnew Hmark Hguess Hadd Hprune h Hreach.
  induction Hreach as [wl now|c h Hreach IH].
  { apply map_Forall_empty. }
  assert (Hget : ∀ id g, games h !! id = Some g → P g).
  { intros id g Hg. exact (proj2 (IH id g Hg)). }
  destruct c as [fuel|now req|now now' req|now req|now req|now req|now req| |now clock];
    simpl.
  - unfold handleIndex. destruct (indexLoop fuel h (rand h)); exact IH.
  - unfold handleNewGame. destruct req as [body|]; [|exact IH].
    destruct (decide (new_game_id body = "")) as [|Hid]; [exact IH|].
    assert (Hcreate : ∀ og : option (Game Color),
      map_Forall (λ id g, id ≠ "" ∧ P g)
        (games
           (let ws := if decide (length (words body) = 0) then allWords h
                      else words body in
            if decide (length ws < length colorDistribution) then (too_few_words, h)
            else
              let '(s, r) := Int63 (rand h) in
              let game := ReconstructGame (NewState s ws) in
              let game := match og with
                          | Some og => carryPlayers (players og) game
                          | None => game
                          end in
              let g := set_CreatedAt now game in
              (JSONGame g, set_games (<[new_game_id body := g]> (games h))
                                     (set_rand r h))).2)).
    { intros og. simpl. case_decide; [exact IH|].
      destruct (Int63 (rand h)) as [s r]. simpl.
      apply map_Forall_insert_2; [|exact IH]. split; [exact Hid|].
      destruct og as [og|].
      - apply Hnew.
      - specialize (Hnew (NewState s (if decide (length (words body) = 0)
                                      then allWords h else words body))
                         (players (ReconstructGame
                                     (NewState s (if decide (length (words body) = 0)
                                                  then allWords h else words body))))
                         now).
        destruct (ReconstructGame _); exact Hnew. }
    destruct (games h !! new_game_id body) as [og|] eqn:Hog.
    + destruct (stalePrevSeed (prev_seed body) og); [exact IH|].
      exact (Hcreate (Some og)).
    + exact (Hcreate None).
  - unfold handleGuess. destruct req as [body|]; [|exact IH].
    case_decide as Hbad; [exact IH|].
    destruct (games h !! game_id body) as [g|] eqn:Hg; [|exact IH].
    case_decide; [exact IH|]. simpl.
    apply map_Forall_insert_2; [|exact IH].
    split; [tauto|]. apply Hguess, Hmark. eauto.
  - unfold handleEndTurn. destruct req as [body|]; [|exact IH].
    case_decide as Hbad; [exact IH|].
    destruct (games h !! game_id body) as [g|] eqn:Hg; [|exact IH].
    case_decide; [exact IH|]. simpl.
    apply map_Forall_insert_2; [|exact IH].
    split; [tauto|]. apply Hadd, Hmark. eauto.
  - unfold handleChat. destruct req as [body|]; [|exact IH].
    case_decide as Hbad; [exact IH|].
    destruct (games h !! game_id body) as [g|] eqn:Hg; [|exact IH].
    case_decide; [exact IH|]. simpl.
    apply map_Forall_insert_2; [|exact IH].
    split; [tauto|]. apply Hadd, Hmark. eauto.
  - unfold handleEvents. destruct req as [body|]; [|exact IH].
    case_decide as Hbad; [exact IH|].
    destruct (games h !! game_id body) as [g|] eqn:Hg; [|exact IH].
    case_decide; [exact IH|]. simpl.
    case_decide; simpl; (apply map_Forall_insert_2; [|exact IH]);
      (split; [tauto|]); apply Hmark; eauto.
  - unfold handlePing. destruct req as [body|]; [|exact IH].
    case_decide as Hbad; [exact IH|].
    destruct (games h !! game_id body) as [g|] eqn:Hg; [|exact IH].
    case_decide; [exact IH|]. simpl.
    apply map_Forall_insert_2; [|exact IH].
    split; [tauto|]. apply Hmark. eauto.
  - exact IH.
  - intros id g'. unfold sweep. simpl. rewrite map_lookup_imap.
    destruct (games h !! id) as [g|] eqn:Hg; simpl; [|discriminate].
    unfold sweepGame.
    pose proof (Hprune now g (Hget id g Hg)) as Hp.
    destruct (pruneOldPlayers now g) as [remaining g1]. simpl in Hp.
    destruct (IH id g Hg) as [Hid _].
    repeat case_match; intros [= <-]; split; assumption.
Qed.

(** ** The event log *)

Lemma gap_free_addEvent (e : Event) (g : Game Color) :
  gap_free (Events g) → gap_free (Events (addEvent e g)).
Proof.
  unfold gap_free, addEvent. simpl. intros Hg.
  rewrite fmap_app, length_app, Hg. simpl.
  rewrite Nat.add_1_r, seqZ_S. do 2 f_equal. lia.
Qed.

Lemma gap_free_guess (pid nm : string) (t i : Z) (now : Time) (g : Game Color) :
  gap_free (Events g) → gap_free (Events (guess pid nm t i now g).2).
Proof.
  intros Hg. unfold guess. case_bool_decide; cbn [snd]; [|exact Hg].
  apply gap_free_addEvent. exact Hg.
Qed.

(** In a log numbered from [m] on, the events above [n] are a suffix. *)
Lemma filter_above_drop (es : list Event) (m n : Z) :
  Number <$> es = seqZ m (Z.of_nat (length es)) →
  filter (λ e, (n < Number e)%Z) es = drop (Z.to_nat (n - m + 1)) es.
Proof.
  revert m. induction es as [|e es IH]; intros m Hnum.
  { rewrite drop_nil. reflexivity. }
  simpl in Hnum. rewrite seqZ_cons in Hnum by lia.
  injection Hnum as He Hes.
  replace (Z.pred (Z.of_nat (S (length es)))) with (Z.of_nat (length es)) in Hes by lia.
  specialize (IH (Z.succ m) Hes).
  destruct (decide (n < m)%Z) as [Hlt|Hge].
  - rewrite filter_cons_True by lia.
    replace (Z.to_nat (n - m + 1)) with 0 by lia.
    replace (Z.to_nat (n - Z.succ m + 1)) with 0 in IH by lia.
    rewrite IH. reflexivity.
  - rewrite filter_cons_False by lia.
    replace (Z.to_nat (n - m + 1)) with (S (Z.to_nat (n - Z.succ m + 1))) by lia.
    exact IH.
Qed.

(** Every game of the registry is a game object of the server, and none
    is registered under the empty id. *)
Lemma registry_live (h : handler) (id : string) (g : Game Color) :
  reachable h → games h !! id = Some g → id ≠ "" ∧ live g.
Proof.
  intros Hreach Hg.
  refine (registry_invariant live _ _ _ _ _ h Hreach id g Hg).
  - apply live_new.
  - apply live_markSeen.
  - apply live_guess.
  - apply live_addEvent.
  - apply live_pruneOldPlayers.
Qed.

Lemma live_gap_free (g : Game Color) : live g → gap_free (Events g).
Proof.
  induction 1 as [st ps now|pid nm t now g _ IH|pid nm t i now g _ IH
                 |e g _ IH|now g _ IH|g _ IH].
  - simpl. rewrite ReconstructGame_Events. reflexivity.
  - exact IH.
  - apply gap_free_guess. exact IH.
  - apply gap_free_addEvent. exact IH.
  - exact IH.
  - exact IH.
Qed.

(** C3: for every game object of the server, whatever the order of the
    operations on it (the games of the registry are such objects in every
    state of the server, by [registry_live]), the sequence numbers of the
    log are 1, 2, 3, ... in this order, and [eventsSince n] returns exactly
    the events numbered above [n]: the suffix of the log after the first
    [n] events, whose [i]-th element (from 0) has the number
    [max n 0 + 1 + i]. *)
Theorem event_numbers_gap_free (g : Game Color) :
  live g →
  Number <$> Events g = seqZ 1 (Z.of_nat (length (Events g))) ∧
  ∀ n : Z,
    (∀ e, e ∈ (eventsSince n g).1 ↔ e ∈ Events g ∧ (n < Number e)%Z) ∧
    (eventsSince n g).1 = drop (Z.to_nat n) (Events g) ∧
    (∀ i e, (eventsSince n g).1 !! i = Some e →
            Number e = (Z.max n 0 + 1 + Z.of_nat i)%Z).
Proof.
  intros Hlive. pose proof (live_gap_free g Hlive) as Hgap.
  split; [exact Hgap|]. intros n.
  assert (Hdrop : (eventsSince n g).1 = drop (Z.to_nat n) (Events g)).
  { unfold eventsSince. simpl. rewrite (filter_above_drop _ 1) by exact Hgap.
    f_equal. lia. }
  split_and!.
  - intros e. unfold eventsSince. simpl. rewrite list_elem_of_filter. tauto.
  - exact Hdrop.
  - intros i e. rewrite Hdrop, lookup_drop. intros He.
    assert (Hn : (Number <$> Events g) !! (Z.to_nat n + i) = Some (Number e)).
    { rewrite list_lookup_fmap, He. reflexivity. }
    rewrite Hgap in Hn. apply lookup_seqZ in Hn as [-> _]. lia.
Qed.

(** ** The board of a game *)




(** ** Seed mismatch *)

(** C1 (amended): for every action request on an existing session whose
    seed differs from the seed of the live game, the state of the server is
    unchanged: no presence is touched and no event is appended.  When the
    required fields are present, the events poll answers with the current
    seed and all events since [last_event]; guess, end-turn, chat and ping
    answer with the error [bad_seed]. *)
Theorem seed_mismatch_no_mutation (h : handler) (body : Body) (g : Game Color)
    (now now' : Time) :
  games h !! game_id body = Some g → seed body ≠ Seed g →
  ((handleGuess now now' (Some body) h).2 = h ∧
   (handleEndTurn now (Some body) h).2 = h ∧
   (handleChat now (Some body) h).2 = h ∧
   (handlePing now (Some body) h).2 = h ∧
   (handleEvents now (Some body) h).2 = h) ∧
  (game_id body ≠ "" → player_id body ≠ "" →
   (handleEvents now (Some body) h).1
     = Respond (JSONUpdate (Seed g) (eventsSince (last_event body) g).1) ∧
   (handlePing now (Some body) h).1 = bad_seed ∧
   (team body ≠ 0%Z →
    (handleGuess now now' (Some body) h).1 = bad_seed ∧
    (handleEndTurn now (Some body) h).1 = bad_seed ∧
    (message body ≠ "" → (handleChat now (Some body) h).1 = bad_seed))).
Proof.
  intros Hg Hseed.
  unfold handleGuess, handleEndTurn, handleChat, handlePing, handleEvents.
  rewrite Hg. split.
  - repeat split; repeat case_decide; try reflexivity; contradiction.
  - intros Hid Hpid. repeat split.
    + repeat case_decide; try reflexivity; tauto.
    + repeat case_decide; try reflexivity; tauto.
    + repeat case_decide; try reflexivity; tauto.
    + repeat case_decide; try reflexivity; tauto.
    + intros Hmsg. repeat case_decide; try reflexivity; tauto.
Qed.

(** ** Create and reset *)

(** C2: for every create request on a session that exists, if [prev_seed]
    is absent or differs from the seed of the live game, the answer is the
    existing game and the server is unchanged: the registry, and with it
    the game's seed, tiles, players and events, are as before. *)
Theorem reset_guard_keeps_game (h : handler) (now : Time) (body : NewGameBody)
    (og : Game Color) :
  reachable h → games h !! new_game_id body = Some og →
  prev_seed body ≠ Some (Seed og) →
  handleNewGame now (Some body) h = (JSONGame og, h).
Proof.
  intros Hreach Hog Hprev.
  destruct (registry_live h _ og Hreach Hog) as [Hid _].
  unfold handleNewGame. rewrite Hog. case_decide; [contradiction|].
  unfold stalePrevSeed. destruct (prev_seed body) as [s|]; [|reflexivity].
  case_bool_decide as Hs; [reflexivity|].
  exfalso. apply Hprev. f_equal. destruct (decide (s = Seed og)); tauto.
Qed.

(** C7 (amended): a create request whose effective word list is shorter
    than [colorDistribution] never changes the server.  When its id is not
    empty and the reset guard lets it through (the session does not exist,
    or [prev_seed] is the seed of the live game), the answer is the error
    [too_few_words]; when the reset guard stops it, the answer is the
    existing game. *)
Theorem too_few_words_rejected (h : handler) (now : Time) (body : NewGameBody) :
  length (if decide (length (words body) = 0) then allWords h else words body)
    < length colorDistribution →
  (handleNewGame now (Some body) h).2 = h ∧
  (new_game_id body ≠ "" →
   (∀ og, games h !! new_game_id body = Some og → prev_seed body = Some (Seed og)) →
   (handleNewGame now (Some body) h).1 = too_few_words) ∧
  (new_game_id body ≠ "" →
   ∀ og, games h !! new_game_id body = Some og → prev_seed body ≠ Some (Seed og) →
   (handleNewGame now (Some body) h).1 = JSONGame og).
Proof.
  intros Hshort. unfold handleNewGame.
  set (ws := if decide (length (words body) = 0) then allWords h else words body) in *.
  split_and!.
  - destruct (decide (new_game_id body = "")); [reflexivity|].
    destruct (games h !! new_game_id body) as [og|].
    + destruct (stalePrevSeed _ og); [reflexivity|].
      destruct (decide (length ws < length colorDistribution)); [reflexivity|contradiction].
    + destruct (decide (length ws < length colorDistribution)); [reflexivity|contradiction].
  - intros Hid Hguard.
    destruct (decide (new_game_id body = "")); [contradiction|].
    destruct (games h !! new_game_id body) as [og|].
    + rewrite (Hguard og eq_refl). simpl.
      rewrite bool_decide_eq_false_2 by tauto.
      destruct (decide (length ws < length colorDistribution)); [reflexivity|contradiction].
    + destruct (decide (length ws < length colorDistribution)); [reflexivity|contradiction].
  - intros Hid og Hog Hprev. rewrite Hog.
    destruct (decide (new_game_id body = "")); [contradiction|].
    replace (stalePrevSeed (prev_seed body) og) with true; [reflexivity|].
    unfold stalePrevSeed. destruct (prev_seed body) as [s0|]; [|reflexivity].
    symmetry. apply bool_decide_eq_true_2. congruence.
Qed.

(** *** The seeds of the registry *)







(** ** Guesses and required fields *)

(** C5 (amended): for every guess request with the required fields, a
    matching seed and an index outside the board, [guess] rejects the guess
    and changes nothing: no tile is revealed, no event is appended and the
    channel stays.  The handler has marked the player seen before, so the
    player's entry, and nothing else of the game, is updated; the answer is
    the acknowledgement. *)
Theorem out_of_bounds_guess (h : handler) (body : Body) (g : Game Color)
    (now now' : Time) :
  games h !! game_id body = Some g → seed body = Seed g →
  game_id body ≠ "" → team body ≠ 0%Z → player_id body ≠ "" →
  ¬ (0 ≤ index body < Z.of_nat (length (Tiles g)))%Z →
  let g' := markSeen (player_id body) (name body) (team body) now g in
  guess (player_id body) (name body) (team body) (index body) now' g' = (false, g') ∧
  handleGuess now now' (Some body) h
    = (status_ok, set_games (<[game_id body := g']> (games h)) h) ∧
  Tiles g' = Tiles g ∧ Events g' = Events g ∧ eventsCh g' = eventsCh g ∧
  Seed g' = Seed g ∧ CreatedAt g' = CreatedAt g ∧
  players g' = <[player_id body := mkPlayer now (team body) (name body)]> (players g).
Proof.
  intros Hg Hseed Hid Hteam Hpid Hout g'.
  assert (Hrej : guess (player_id body) (name body) (team body) (index body) now' g'
                 = (false, g')).
  { unfold guess. rewrite bool_decide_eq_false_2; [reflexivity|exact Hout]. }
  split_and!; try reflexivity; [exact Hrej|].
  unfold handleGuess. rewrite Hg.
  destruct (decide (game_id body = "" ∨ team body = 0%Z ∨ player_id body = ""));
    [tauto|].
  destruct (decide (seed body ≠ Seed g)); [contradiction|].
  fold g'. rewrite Hrej. reflexivity.
Qed.

(** C6 (amended): every guess, end-turn or chat request whose team is 0 is
    answered with the error [malformed_body], and the server is unchanged. *)
Theorem zero_team_rejected (h : handler) (body : Body) (now now' : Time) :
  team body = 0%Z →
  handleGuess now now' (Some body) h = (malformed_body, h) ∧
  handleEndTurn now (Some body) h = (malformed_body, h) ∧
  handleChat now (Some body) h = (malformed_body, h).
Proof.
  intros Hteam. unfold handleGuess, handleEndTurn, handleChat.
  repeat split; case_decide; try reflexivity; tauto.
Qed.

(** ** The sweep *)

(** C8 (amended): on every run of the sweep, a session is deleted if and
    only if no player remains after the pruning and the game was created at
    least 24 hours before the clock of the age check; a session that is
    kept holds the pruned game; and the sweep registers no session. *)
Theorem sweep_deletes_iff (h : handler) (now : Time) (clock : string → Time)
    (id : string) (g : Game Color) :
  games h !! id = Some g →
  (games (sweep now clock h) !! id = None ↔
     players (pruneOldPlayers now g).2 = ∅ ∧ (CreatedAt g + 24 * Hour ≤ clock id)%Z) ∧
  (games (sweep now clock h) !! id = None ∨
   games (sweep now clock h) !! id = Some (pruneOldPlayers now g).2) ∧
  (∀ id', games h !! id' = None → games (sweep now clock h) !! id' = None).
Proof.
  intros Hg. unfold sweep. simpl. split_and!.
  - rewrite map_lookup_imap, Hg. simpl. unfold sweepGame, pruneOldPlayers.
    simpl. unfold After, Add. rewrite <- map_size_empty_iff.
    repeat case_bool_decide; split; try discriminate; try tauto; try lia;
      intros [? ?]; lia.
  - rewrite map_lookup_imap, Hg. simpl. unfold sweepGame, pruneOldPlayers.
    simpl. repeat case_match; auto.
  - intros id' Hnone. rewrite map_lookup_imap, Hnone. reflexivity.
Qed.

(** ** The index endpoint *)

Lemma indexLoop_cases (fuel : nat) (h : handler) (r : Source) :
  match indexLoop fuel h r with
  | Done _ => True
  | Panic => allWords h = []
  | OutOfFuel => fuel = 0 ∨ games h ≠ ∅
  end.
Proof.
  revert r. induction fuel as [|fuel IH]; intros r; simpl; [left; reflexivity|].
  case_bool_decide as Hn.
  { destruct (allWords h); [reflexivity|simpl in Hn; lia]. }
  pose proof (Int63n_range r (Z.of_nat (length (allWords h))) ltac:(lia)) as H1.
  destruct (Int63n r _) as [i1 r1]. simpl in H1.
  destruct (lookup_lt_is_Some_2 (allWords h) (Z.to_nat i1) ltac:(lia)) as [x1 ->].
  pose proof (Int63n_range r1 (Z.of_nat (length (allWords h))) ltac:(lia)) as H2.
  destruct (Int63n r1 _) as [i2 r2]. simpl in H2.
  destruct (lookup_lt_is_Some_2 (allWords h) (Z.to_nat i2) ltac:(lia)) as [x2 ->].
  destruct (games h !! _) as [g|] eqn:Hg; [|exact I].
  specialize (IH r2). destruct (indexLoop fuel h r2); [exact I|exact IH|].
  right. intros Hempty. rewrite Hempty, lookup_empty in Hg. discriminate.
Qed.

Lemma indexLoop_more_fuel (fuel k : nat) (h : handler) (r r' : Source) :
  indexLoop fuel h r = Done r' → indexLoop (fuel + k) h r = Done r'.
Proof.
  revert r. induction fuel as [|fuel IH]; intros r; simpl; [discriminate|].
  case_bool_decide; [discriminate|].
  destruct (Int63n r _) as [i1 r1].
  destruct (allWords h !! Z.to_nat i1) as [x1|]; [|discriminate].
  destruct (Int63n r1 _) as [i2 r2].
  destruct (allWords h !! Z.to_nat i2) as [x2|]; [|discriminate].
  destruct (games h !! _); [apply IH|intros Hdone; exact Hdone].
Qed.

(** C10: whatever the word lists and the games, every answer of the index
    endpoint has the empty string as [autogenerated_id], and the call
    changes nothing but the source of the handler.  The call answers
    whenever it draws a candidate that is free, as the first candidate is
    on a server with words and without games, and more fuel does not change
    an answer; it panics only when there is no word at all. *)
Theorem index_id_always_empty (fuel : nat) (h : handler) :
  match handleIndex fuel h with
  | Done (resp, h') =>
      resp = JSONIndex "" ∧ (∃ r, h' = set_rand r h) ∧
      ∀ k, handleIndex (fuel + k) h = Done (resp, h')
  | Panic => allWords h = []
  | OutOfFuel => fuel = 0 ∨ games h ≠ ∅
  end.
Proof.
  unfold handleIndex. pose proof (indexLoop_cases fuel h (rand h)) as Hloop.
  destruct (indexLoop fuel h (rand h)) as [r| |] eqn:Hrun.
  - split_and!; [reflexivity|exists r; reflexivity|].
    intros k. rewrite (indexLoop_more_fuel fuel k h _ r Hrun). reflexivity.
  - exact Hloop.
  - exact Hloop.
Qed.

End HandlerFacts.

(** ** The concrete server *)

Section ScenarioFacts.
Import Scenario.

Lemma reachable_h1 : reachable h1.
Proof. apply reachable_call, reachable_init. Qed.

Lemma reachable_h2 : reachable h2.
Proof. do 2 apply reachable_call. exact reachable_h1. Qed.

Lemma h1_alpha : games h1 !! "alpha" = Some g1.
Proof. vm_compute. reflexivity. Qed.

Lemma h2_alpha : games h2 !! "alpha" = Some g2.
Proof. vm_compute. reflexivity. Qed.

Example g1_tiles :
  Tiles g1 = [mkTile "Forest" A false; mkTile "Eagle" B false;
              mkTile "Dragon" N false; mkTile "Bridge" A false;
              mkTile "Apple" A false; mkTile "Castle" N false;
              mkTile "Tunnel" B false; mkTile "Garden" N false].
Proof. vm_compute. reflexivity. Qed.

Example g2_events :
  Events g2 = [mkEvent 1 "guess" 1 "p1" "Ann" "" 2;
               mkEvent 2 "end_turn" 1 "p1" "Ann" "" 0].
Proof. vm_compute. reflexivity. Qed.

(** On the fresh server the index endpoint answers at the first round,
    with the empty id. *)
Example index_on_h0 : ∃ h', handleIndex 1 h0 = Done (JSONIndex "", h').
Proof. eexists. vm_compute. reflexivity. Qed.

(** C1, counterexample: a guess that carries the stale seed 8 for the
    session ["alpha"], whose seed is 7, is answered with [bad_seed], not
    with the seed and the events since [last_event]. *)
Lemma stale_guess_answers_bad_seed :
  games h2 !! "alpha" = Some g2 ∧ 8%Z ≠ Seed g2 ∧
  (handleGuess 400 400 (act "alpha" 8 "p1" 1 0 "" 0) h2).1 = bad_seed ∧
  (handleGuess 400 400 (act "alpha" 8 "p1" 1 0 "" 0) h2).1
    ≠ JSONUpdate (Seed g2) (eventsSince 0 g2).1.
Proof.
  split_and!.
  - exact h2_alpha.
  - vm_compute. discriminate.
  - vm_compute. reflexivity.
  - vm_compute. discriminate.
Qed.

Lemma seed_mismatch_no_mutation_witness :
  (handleEvents 400 (act "alpha" 8 "p1" 1 0 "" 0) h2).1
    = Respond (JSONUpdate 7 (Events g2)) ∧
  (handleChat 400 (act "alpha" 8 "p1" 1 0 "hello" 0) h2).2 = h2.
Proof.
  pose proof (seed_mismatch_no_mutation h2 (mkBody "alpha" 8 "p1" "Ann" 1 0 "" 0)
                g2 400 400 h2_alpha ltac:(vm_compute; discriminate)) as [_ Hresp].
  pose proof (seed_mismatch_no_mutation h2 (mkBody "alpha" 8 "p1" "Ann" 1 0 "hello" 0)
                g2 400 400 h2_alpha ltac:(vm_compute; discriminate)) as [Hstate _].
  split.
  - exact (proj1 (Hresp ltac:(discriminate) ltac:(discriminate))).
  - exact (proj1 (proj2 (proj2 Hstate))).
Defined.

Lemma reset_guard_keeps_game_witness :
  handleNewGame 500 (create "alpha" [] (Some 3%Z)) h2 = (JSONGame g2, h2).
Proof.
  apply (reset_guard_keeps_game h2 500 (mkNewGameBody "alpha" [] (Some 3%Z)) g2).
  - exact reachable_h2.
  - exact h2_alpha.
  - vm_compute. discriminate.
Defined.

Lemma event_numbers_gap_free_witness :
  Number <$> Events g2 = seqZ 1 (Z.of_nat (length (Events g2))) ∧
  (eventsSince 1 g2).1 = drop 1 (Events g2).
Proof.
  destruct (event_numbers_gap_free g2
              (proj2 (registry_live h2 "alpha" g2 reachable_h2 h2_alpha)))
    as [Hlog Hsince].
  split; [exact Hlog|]. exact (proj1 (proj2 (Hsince 1%Z))).
Defined.

(** The third part of [board_generation] needs a list without repeated
    words: over a list of eight equal words the eight tiles, taken from
    eight positions, carry the same word. *)
Example board_words_may_repeat :
  length (colorDistribution (Color := Color)) ≤ length (replicate 8 "Apple") ∧
  ¬ NoDup (Word <$> Tiles (ReconstructGame (Color := Color)
                             (NewState 7 (replicate 8 "Apple")))).
Proof.
  split; [vm_compute; lia|].
  apply (bool_decide_eq_false_1 _). vm_compute. reflexivity.
Qed.


(** C5, counterexample: the board of ["alpha"] has the tiles 0 to 7; a
    guess of tile 8 is acknowledged and leaves the player in the game's
    presence map, where there was none before. *)
Lemma out_of_bounds_guess_marks_player :
  games h1 !! "alpha" = Some g1 ∧ length (Tiles g1) = 8 ∧ players g1 !! "p1" = None ∧
  (handleGuess 200 200 (act "alpha" 7 "p1" 1 8 "" 0) h1).1 = status_ok ∧
  games (handleGuess 200 200 (act "alpha" 7 "p1" 1 8 "" 0) h1).2 !! "alpha"
    = Some (markSeen "p1" "Ann" 1 200 g1) ∧
  players (markSeen "p1" "Ann" 1 200 g1) !! "p1" = Some (mkPlayer 200 1 "Ann").
Proof. split_and!; vm_compute; reflexivity. Qed.

Lemma out_of_bounds_guess_witness :
  handleGuess 200 200 (act "alpha" 7 "p1" 1 8 "" 0) h1
    = (status_ok, set_games (<["alpha" := markSeen "p1" "Ann" 1 200 g1]> (games h1)) h1).
Proof.
  refine (proj1 (proj2 (out_of_bounds_guess h1 (mkBody "alpha" 7 "p1" "Ann" 1 8 "" 0)
                          g1 200 200 h1_alpha _ _ _ _ _))).
  - reflexivity.
  - discriminate.
  - discriminate.
  - discriminate.
  - vm_compute. intros [_ Hlt]. discriminate Hlt.
Defined.

(** C6, counterexample: an end-turn request of team -1 is accepted: it is
    acknowledged and its event is appended. *)
Lemma negative_team_accepted :
  (handleEndTurn 300 (act "alpha" 7 "p1" (-1) 0 "" 0) h1).1 = status_ok ∧
  Events <$> games (handleEndTurn 300 (act "alpha" 7 "p1" (-1) 0 "" 0) h1).2 !! "alpha"
    = Some [mkEvent 1 "end_turn" (-1) "p1" "Ann" "" 0] ∧
  (handleEndTurn 300 (act "alpha" 7 "p1" (-1) 0 "" 0) h1).1 ≠ malformed_body.
Proof. split_and!; vm_compute; (reflexivity || discriminate). Qed.

Lemma zero_team_rejected_witness :
  handleChat 300 (act "alpha" 7 "p1" 0 0 "hello" 0) h1 = (malformed_body, h1).
Proof.
  exact (proj2 (proj2 (zero_team_rejected h1 (mkBody "alpha" 7 "p1" "Ann" 0 0 "hello" 0)
                         300 300 eq_refl))).
Defined.

(** C7, counterexample: a create request with two words for the live
    session ["alpha"], without [prev_seed], is answered with the existing
    game, not with [too_few_words]. *)
Lemma short_list_on_live_session :
  length ["one"; "two"] < length (colorDistribution (Color := Color)) ∧
  (handleNewGame 500 (create "alpha" ["one"; "two"] None) h1).1 = JSONGame g1 ∧
  (handleNewGame 500 (create "alpha" ["one"; "two"] None) h1).1 ≠ too_few_words.
Proof.
  split_and!.
  - vm_compute. lia.
  - vm_compute. reflexivity.
  - vm_compute. discriminate.
Qed.

Lemma too_few_words_rejected_witness :
  handleNewGame 500 (create "beta" ["one"; "two"] None) h1 = (too_few_words, h1).
Proof.
  assert (Hshort : length ["one"; "two"] < length (colorDistribution (Color := Color)))
    by (vm_compute; lia).
  destruct (too_few_words_rejected h1 500 (mkNewGameBody "beta" ["one"; "two"] None)
              Hshort) as (Hstate & Hresp & _).
  apply injective_projections.
  - apply Hresp; [discriminate|]. intros og Hog. vm_compute in Hog. discriminate.
  - exact Hstate.
Defined.

(** C8, counterexample: ["alpha"] was created at clock 100 and has no
    player; the sweep deletes it when exactly 24 hours have passed, not
    more. *)
Lemma sweep_deletes_at_24_hours :
  games h1 !! "alpha" = Some g1 ∧ players g1 = ∅ ∧
  (day_later - CreatedAt g1 = 24 * Hour)%Z ∧
  games (sweep day_later (λ _, day_later) h1) !! "alpha" = None.
Proof. split_and!; vm_compute; reflexivity. Qed.

Lemma sweep_deletes_iff_witness :
  games (sweep 200 (λ _, 200%Z) h2) !! "alpha" = Some (pruneOldPlayers 200 g2).2.
Proof.
  destruct (sweep_deletes_iff h2 200 (λ _, 200%Z) "alpha" g2 h2_alpha)
    as (Hiff & [Hgone|Hkept] & _); [|exact Hkept].
  apply Hiff in Hgone as [_ Hage]. vm_compute in Hage. contradiction.
Defined.

(** [reset_carries_players] needs a source that does not repeat: on the
    counter source, which gives 7 twice in a row, the reset of ["alpha"]
    draws 7 again and the replacing game has the seed of the old one. *)
Example reset_may_repeat_seed :
  games h1 !! "alpha" = Some g1 ∧ Seed g1 = 7%Z ∧
  Seed <$> games (handleNewGame 600 (create "alpha" [] (Some 7%Z)) h1).2 !! "alpha"
    = Some 7%Z ∧
  CreatedAt <$> games (handleNewGame 600 (create "alpha" [] (Some 7%Z)) h1).2 !! "alpha"
    = Some 600%Z.
Proof. split_and!; vm_compute; reflexivity. Qed.






End ScenarioFacts.

(** * More of the handler *)

(** ** The word list of the server *)

Lemma string_compare_trans (s1 s2 s3 : string) :
  String.compare s1 s2 ≠ Gt → String.compare s2 s3 ≠ Gt → String.compare s1 s3 ≠ Gt.
Proof.
  revert s2 s3. induction s1 as [|a s1 IH]; intros [|b s2] [|c s3]; simpl;
    try congruence.
  unfold Ascii.compare.
  destruct (N.compare_spec (Ascii.N_of_ascii a) (Ascii.N_of_ascii b)) as [Hab|Hab|Hab];
    destruct (N.compare_spec (Ascii.N_of_ascii b) (Ascii.N_of_ascii c)) as [Hbc|Hbc|Hbc];
    destruct (N.compare_spec (Ascii.N_of_ascii a) (Ascii.N_of_ascii c)) as [Hac|Hac|Hac];
    try congruence; try lia.
  apply IH.
Qed.

#[local] Instance string_le_trans : Transitive string_le.
Proof.
  intros s1 s2 s3. unfold string_le, String.leb. intros H12 H23.
  pose proof (string_compare_trans s1 s2 s3) as Htrans.
  destruct (String.compare s1 s2); destruct (String.compare s2 s3);
    destruct (String.compare s1 s3); try reflexivity; try discriminate;
    exfalso; apply Htrans; congruence.
Qed.

#[local] Instance string_le_total : Total string_le.
Proof. intros s1 s2. apply String.leb_total. Qed.

#[local] Instance string_le_antisymm : AntiSymm (=) string_le.
Proof. intros s1 s2. apply String.leb_antisym. Qed.

(** The loop that collects the words keeps a list without duplicates, and
    the set of the words of that list. *)
Lemma collectWord_fold (ws : list string) (acc : list string * gset string) :
  NoDup acc.1 → (∀ w, w ∈ acc.2 ↔ w ∈ acc.1) →
  NoDup (foldl collectWord acc ws).1 ∧
  ∀ w, w ∈ (foldl collectWord acc ws).1 ↔ w ∈ acc.1 ∨ w ∈ ws.
Proof.
  revert acc. induction ws as [|x ws IH]; intros acc Hnd Hset; simpl.
  { split; [exact Hnd|]. intros w. rewrite elem_of_nil. tauto. }
  remember (collectWord acc x) as acc' eqn:Hacc. unfold collectWord in Hacc.
  destruct (decide (x ∈ acc.2)) as [Hin|Hnin]; subst acc'.
  - destruct (IH acc Hnd Hset) as [Hnd' Hmem]. split; [exact Hnd'|].
    intros w. rewrite Hmem, elem_of_cons.
    apply Hset in Hin. split; [tauto|]. intros [?|[->|?]]; tauto.
  - destruct (IH (acc.1 ++ [x], {[x]} ∪ acc.2)) as [Hnd' Hmem]; simpl.
    + apply NoDup_app. split_and!; [exact Hnd| |apply NoDup_singleton].
      intros w Hw Hx. apply list_elem_of_singleton in Hx as ->.
      apply Hnin, Hset, Hw.
    + intros w. rewrite elem_of_union, elem_of_singleton, elem_of_app,
        list_elem_of_singleton, Hset. tauto.
    + split; [exact Hnd'|]. intros w. rewrite Hmem. simpl.
      rewrite elem_of_app, list_elem_of_singleton, elem_of_cons. tauto.
Qed.

Section MoreFacts.
Context {Source : Type} `{!Rand Source} {Color : Type} `{!GameConsts Color}.
Context `{!Strings}.

#[local] Abbreviation handler := (handler Source Color).

Lemma Handler_allWords (wl : gmap string (list string)) (now : Time) :
  StronglySorted string_le (allWords (Handler wl now : handler)) ∧
  NoDup (allWords (Handler wl now : handler)) ∧
  ∀ w, w ∈ allWords (Handler wl now : handler) ↔ ∃ nm l, wl !! nm = Some l ∧ w ∈ l.
Proof.
  unfold Handler. simpl.
  destruct (collectWord_fold (concat (map_to_list wl).*2) ([], ∅)) as [Hnd Hmem];
    simpl; [apply NoDup_nil_2|intros w; rewrite elem_of_nil; set_solver|].
  split_and!.
  - apply StronglySorted_merge_sort; apply _.
  - rewrite merge_sort_Permutation. exact Hnd.
  - intros w. rewrite merge_sort_Permutation, Hmem, elem_of_nil.
    rewrite (list_elem_of_In (concat _) w), in_concat.
    split.
    + intros [[]|(l & Hl & Hw)].
      apply list_elem_of_In in Hl. apply list_elem_of_In in Hw.
      apply list_elem_of_fmap in Hl as ([nm l'] & -> & Hin).
      apply elem_of_map_to_list in Hin. exists nm, l'. split; assumption.
    + intros (nm & l & Hl & Hw). right. exists l.
      split; apply list_elem_of_In; [|exact Hw].
      apply list_elem_of_fmap. exists (nm, l). split; [reflexivity|].
      apply elem_of_map_to_list. exact Hl.
Qed.

(** No call changes the word lists of the server. *)
Lemma after_config (c : Call) (h : handler) :
  wordLists (after c h) = wordLists h ∧ allWords (after c h) = allWords h.
Proof.
  destruct c as [fuel|now req|now now' req|now req|now req|now req|now req| |now clock];
    simpl.
  - unfold handleIndex. destruct (indexLoop _ _ _); split; reflexivity.
  - unfold handleNewGame. destruct req as [body|]; [|split; reflexivity].
    destruct (decide (new_game_id body = "")); [split; reflexivity|].
    destruct (games h !! new_game_id body) as [og|];
      [destruct (stalePrevSeed _ og); [split; reflexivity|]|];
      (destruct (decide (_ < _)); [split; reflexivity|]);
      destruct (Int63 (rand h)); split; reflexivity.
  - unfold handleGuess. repeat case_match; split; reflexivity.
  - unfold handleEndTurn. repeat case_match; split; reflexivity.
  - unfold handleChat. repeat case_match; split; reflexivity.
  - unfold handleEvents. repeat case_match; split; reflexivity.
  - unfold handlePing. repeat case_match; split; reflexivity.
  - split; reflexivity.
  - split; reflexivity.
Qed.

Lemma reachable_config (h : handler) :
  reachable h → allWords h = allWords (Handler (wordLists h) 0 : handler).
Proof.
  induction 1 as [wl now|c h _ IH]; [reflexivity|].
  destruct (after_config c h) as [-> ->]. exact IH.
Qed.

(** X1: in every state of the server the combined word list is sorted in
    the order of [sort.Strings], has no word twice, and holds exactly the
    words of the word lists the server was started with. *)
Theorem allWords_sorted_union (h : handler) :
  reachable h →
  StronglySorted string_le (allWords h) ∧ NoDup (allWords h) ∧
  ∀ w, w ∈ allWords h ↔ ∃ nm l, wordLists h !! nm = Some l ∧ w ∈ l.
Proof.
  intros Hreach. rewrite (reachable_config h Hreach). apply Handler_allWords.
Qed.

(** X2: the combined word list depends on the words only: two servers
    whose word lists hold the same words, under whatever names and in
    whatever order, start with the same combined list. *)
Theorem allWords_order_independent (wl1 wl2 : gmap string (list string))
    (now1 now2 : Time) :
  (∀ w, (∃ nm l, wl1 !! nm = Some l ∧ w ∈ l) ↔ (∃ nm l, wl2 !! nm = Some l ∧ w ∈ l)) →
  allWords (Handler wl1 now1 : handler)
    = allWords (Handler wl2 now2 : handler).
Proof.
  intros Hsame.
  destruct (Handler_allWords wl1 now1) as (Hs1 & Hn1 & Hm1).
  destruct (Handler_allWords wl2 now2) as (Hs2 & Hn2 & Hm2).
  apply (StronglySorted_unique string_le); [exact Hs1|exact Hs2|].
  apply NoDup_Permutation; [exact Hn1|exact Hn2|].
  intros w. rewrite Hm1, Hm2. apply Hsame.
Qed.

(** The body of [handleIndex], between [Lock] and [Unlock], panics exactly
    when the server was started without any word. *)
Lemma handleIndex_Panic_iff (fuel : nat) (h : handler) :
  reachable h →
  (handleIndex (S fuel) h = Panic ↔ ∀ nm l, wordLists h !! nm = Some l → l = []).
Proof.
  intros Hreach.
  assert (Hmem : ∀ w, w ∈ allWords h ↔ ∃ nm l, wordLists h !! nm = Some l ∧ w ∈ l).
  { rewrite (reachable_config h Hreach). apply Handler_allWords. }
  split.
  - intros Hpanic nm l Hl.
    assert (Hnil : allWords h = []).
    { unfold handleIndex in Hpanic.
      pose proof (indexLoop_cases (S fuel) h (rand h)) as Hcases.
      destruct (indexLoop (S fuel) h (rand h)); [discriminate|exact Hcases|discriminate]. }
    destruct l as [|w l]; [reflexivity|]. exfalso.
    assert (Hw : w ∈ allWords h) by (apply Hmem; exists nm, (w :: l); split;
                                     [exact Hl|left]).
    rewrite Hnil in Hw. inversion Hw.
  - intros Hempty.
    assert (Hnil : allWords h = []).
    { destruct (allWords h) as [|w ws] eqn:Hall; [reflexivity|]. exfalso.
      assert (Hw : w ∈ w :: ws) by left.
      apply Hmem in Hw as (nm & l & Hl & Hin).
      rewrite (Hempty nm l Hl) in Hin. inversion Hin. }
    unfold handleIndex. simpl. rewrite Hnil. reflexivity.
Qed.

(** X3: on a server whose lock is free, a call of the index endpoint
    panics exactly when the server was started without any word.  The
    panic leaves [h.mu] locked: from then on every call that comes to
    [h.mu.Lock()], another index call among them, waits and changes
    nothing, and only the requests that fail the check of their body are
    still answered. *)
Theorem index_panic_holds_lock (fuel : nat) (s : server Source Color) :
  reachable (srv s) → mu_held s = false →
  (fate (CallIndex (S fuel)) s = Panics ↔
     ∀ nm l, wordLists (srv s) !! nm = Some l → l = []) ∧
  (fate (CallIndex (S fuel)) s = Panics →
   ∀ c, (takes_lock c = true →
           fate c (serve (CallIndex (S fuel)) s) = Blocks ∧
           serve c (serve (CallIndex (S fuel)) s) = serve (CallIndex (S fuel)) s) ∧
        (takes_lock c = false →
           fate c (serve (CallIndex (S fuel)) s) = Returns ∧
           srv (serve c (serve (CallIndex (S fuel)) s)) = srv s)).
Proof.
  intros Hreach Hfree.
  assert (Hfate : fate (CallIndex (S fuel)) s = Panics ↔
                  handleIndex (S fuel) (srv s) = Panic).
  { unfold fate. rewrite Hfree. cbn [andb takes_lock].
    destruct (handleIndex (S fuel) (srv s)); split; congruence. }
  split.
  - rewrite Hfate. apply handleIndex_Panic_iff. exact Hreach.
  - intros Hpanic c.
    assert (Hafter : serve (CallIndex (S fuel)) s = mkServer (srv s) true).
    { unfold serve. rewrite Hpanic. reflexivity. }
    rewrite Hafter. split; intros Hlock.
    + assert (Hblocks : fate c (mkServer (srv s) true) = Blocks).
      { unfold fate. simpl. rewrite Hlock. reflexivity. }
      split; [exact Hblocks|]. unfold serve. rewrite Hblocks. reflexivity.
    + assert (Hreturns : fate c (mkServer (srv s) true) = Returns).
      { unfold fate. simpl. rewrite Hlock.
        destruct c; try reflexivity; discriminate. }
      split; [exact Hreturns|]. unfold serve. rewrite Hreturns. simpl.
      destruct c as [fuel'|now req|now now' req|now req|now req|now req|now req|
                    |now clock]; simpl in *; try discriminate.
      * unfold handleNewGame. destruct req as [b|]; [|reflexivity].
        case_bool_decide; [discriminate|].
        destruct (decide (new_game_id b = "")); [reflexivity|contradiction].
      * unfold handleGuess. destruct req as [b|]; [|reflexivity].
        case_bool_decide; [discriminate|]. case_decide; [reflexivity|contradiction].
      * unfold handleEndTurn. destruct req as [b|]; [|reflexivity].
        case_bool_decide; [discriminate|]. case_decide; [reflexivity|contradiction].
      * unfold handleChat. destruct req as [b|]; [|reflexivity].
        case_bool_decide; [discriminate|]. case_decide; [reflexivity|contradiction].
      * unfold handleEvents. destruct req as [b|]; [|reflexivity].
        case_bool_decide; [discriminate|]. case_decide; [reflexivity|contradiction].
      * unfold handlePing. destruct req as [b|]; [|reflexivity].
        case_bool_decide; [discriminate|]. case_decide; [reflexivity|contradiction].
Qed.

(** ** Requests that are turned away *)

(** X4: in every state of the server no session is registered under the
    empty id. *)
Theorem no_session_with_empty_id (h : handler) :
  reachable h → games h !! "" = None.
Proof.
  intros Hreach. destruct (games h !! "") as [g|] eqn:Hg; [|reflexivity].
  destruct (registry_live h "" g Hreach Hg) as [Hid _]. contradiction.
Qed.

(** X5: a body that cannot be decoded, an empty [game_id], an empty
    [player_id] and, for a chat, an empty [message] are answered with
    [malformed_body] before the registry is looked at, whether the session
    exists or not, and the server is unchanged. *)
Theorem malformed_requests_rejected (h : handler) (now now' : Time) :
  (handleNewGame now None h = (malformed_body, h) ∧
   handleGuess now now' None h = (malformed_body, h) ∧
   handleEndTurn now None h = (malformed_body, h) ∧
   handleChat now None h = (malformed_body, h) ∧
   handleEvents now None h = (Respond malformed_body, h) ∧
   handlePing now None h = (malformed_body, h)) ∧
  (∀ b, new_game_id b = "" → handleNewGame now (Some b) h = (malformed_body, h)) ∧
  (∀ b, game_id b = "" ∨ player_id b = "" →
     handleGuess now now' (Some b) h = (malformed_body, h) ∧
     handleEndTurn now (Some b) h = (malformed_body, h) ∧
     handleChat now (Some b) h = (malformed_body, h) ∧
     handleEvents now (Some b) h = (Respond malformed_body, h) ∧
     handlePing now (Some b) h = (malformed_body, h)) ∧
  (∀ b, message b = "" → handleChat now (Some b) h = (malformed_body, h)).
Proof.
  split_and!; try reflexivity.
  - intros b Hid. unfold handleNewGame.
    destruct (decide (new_game_id b = "")); [reflexivity|contradiction].
  - intros b Hbad.
    unfold handleGuess, handleEndTurn, handleChat, handleEvents, handlePing.
    split_and!; case_decide; try reflexivity; tauto.
  - intros b Hmsg. unfold handleChat. case_decide; [reflexivity|tauto].
Qed.

(** X6: an action request with its required fields for a session that is
    not registered is answered with [not_found], and the server is
    unchanged; so is a poll that wakes up to find its session gone. *)
Theorem unknown_session_not_found (h : handler) (b : Body) (now now' : Time)
    (held : Z) :
  games h !! game_id b = None → game_id b ≠ "" → player_id b ≠ "" →
  handleEvents now (Some b) h = (Respond not_found, h) ∧
  handlePing now (Some b) h = (not_found, h) ∧
  handleEventsWake Signalled b held h = not_found ∧
  (team b ≠ 0%Z →
   handleGuess now now' (Some b) h = (not_found, h) ∧
   handleEndTurn now (Some b) h = (not_found, h) ∧
   (message b ≠ "" → handleChat now (Some b) h = (not_found, h))).
Proof.
  intros Hnone Hid Hpid.
  unfold handleGuess, handleEndTurn, handleChat, handleEvents, handlePing,
    handleEventsWake.
  rewrite Hnone. split_and!.
  - case_decide; [tauto|reflexivity].
  - case_decide; [tauto|reflexivity].
  - reflexivity.
  - intros Hteam. split_and!.
    + case_decide; [tauto|reflexivity].
    + case_decide; [tauto|reflexivity].
    + intros Hmsg. case_decide; [tauto|reflexivity].
Qed.

(** X7: what each endpoint can answer.  Guess, end-turn, chat and ping
    answer with the acknowledgement or with one of [malformed_body],
    [not_found], [bad_seed]; new-game answers with a game, [malformed_body]
    or [too_few_words], never with [not_found] or [bad_seed]; the events
    poll answers with an update, [malformed_body] or [not_found], never
    with [bad_seed]. *)
Theorem response_shapes (h : handler) (now now' : Time) :
  (∀ req r,
     r = (handleGuess now now' req h).1 ∨ r = (handleEndTurn now req h).1 ∨
     r = (handleChat now req h).1 ∨ r = (handlePing now req h).1 →
     r = status_ok ∨ r = malformed_body ∨ r = not_found ∨ r = bad_seed) ∧
  (∀ req, (∃ g, (handleNewGame now req h).1 = JSONGame g) ∨
          (handleNewGame now req h).1 = malformed_body ∨
          (handleNewGame now req h).1 = too_few_words) ∧
  (∀ req r, (handleEvents now req h).1 = Respond r →
     (∃ s es, r = JSONUpdate s es) ∨ r = malformed_body ∨ r = not_found) ∧
  (∀ w b held, (∃ s es, handleEventsWake w b held h = JSONUpdate s es) ∨
               handleEventsWake w b held h = not_found).
Proof.
  split_and!.
  - intros req r.
    unfold handleGuess, handleEndTurn, handleChat, handlePing.
    intros [-> | [-> | [-> | ->]]]; repeat case_match; simpl; tauto.
  - intros req. unfold handleNewGame.
    destruct req as [b|]; [|tauto].
    destruct (decide (new_game_id b = "")); [tauto|].
    destruct (games h !! new_game_id b) as [og|];
      [destruct (stalePrevSeed _ og); [left; eexists; reflexivity|]|];
      (destruct (decide (_ < _)); [tauto|]);
      destruct (Int63 (rand h)); left; eexists; reflexivity.
  - intros req r. unfold handleEvents.
    repeat case_match; simpl; intros [= <-]; eauto.
  - intros w b held. unfold handleEventsWake.
    repeat case_match; eauto.
Qed.

(** ** Creating a session *)

(** X8: a create request for a session that is not registered, with enough
    words, registers the game rebuilt from the drawn seed and the effective
    word list (the words of the request, or the combined list when the
    request has none), stamped with the clock; the answer is that game, a
    lookup of the session finds it, every other session is as before, and
    a ping that carries the id and the seed of the game is acknowledged. *)
Theorem create_registers_game (h : handler) (now now' : Time) (b : NewGameBody) :
  games h !! new_game_id b = None → new_game_id b ≠ "" →
  length colorDistribution
    ≤ length (if decide (length (words b) = 0) then allWords h else words b) →
  let g := set_CreatedAt now
             (ReconstructGame
                (NewState (Int63 (rand h)).1
                   (if decide (length (words b) = 0) then allWords h else words b))) in
  (handleNewGame now (Some b) h).1 = JSONGame g ∧
  games (handleNewGame now (Some b) h).2 !! new_game_id b = Some g ∧
  (∀ id, id ≠ new_game_id b →
     games (handleNewGame now (Some b) h).2 !! id = games h !! id) ∧
  (∀ p : Body, game_id p = new_game_id b → seed p = (Int63 (rand h)).1 →
     player_id p ≠ "" →
     (handlePing now' (Some p) (handleNewGame now (Some b) h).2).1 = status_ok).
Proof.
  intros Hnone Hid Hlen g.
  assert (Hcall : handleNewGame now (Some b) h
                  = (JSONGame g, set_games (<[new_game_id b := g]> (games h))
                                   (set_rand (Int63 (rand h)).2 h))).
  { unfold handleNewGame. rewrite Hnone.
    destruct (decide (new_game_id b = "")); [contradiction|].
    destruct (decide (_ < _)); [lia|].
    subst g. destruct (Int63 (rand h)). reflexivity. }
  rewrite Hcall. simpl. split_and!.
  - reflexivity.
  - apply lookup_insert_eq.
  - intros id Hne. apply lookup_insert_ne. congruence.
  - intros p Hp Hseed Hpid. unfold handlePing. simpl.
    rewrite Hp, lookup_insert_eq.
    destruct (decide (new_game_id b = "" ∨ player_id p = "")); [tauto|].
    destruct (decide (seed p ≠ Seed g)) as [Hne|]; [|reflexivity].
    exfalso. apply Hne. rewrite Hseed. subst g. simpl.
    symmetry. apply ReconstructGame_Seed.
Qed.

(** X9: a create request that arrives twice does no harm: when its
    [prev_seed] is not the seed that the first arrival draws, the second
    arrival gets the answer of the first and leaves the server as the
    first left it.  In particular a repeated request without [prev_seed]
    never resets the game. *)
Theorem repeated_create_idempotent (h : handler) (now now' : Time) (b : NewGameBody) :
  prev_seed b ≠ Some (Int63 (rand h)).1 →
  handleNewGame now' (Some b) (handleNewGame now (Some b) h).2
    = ((handleNewGame now (Some b) h).1, (handleNewGame now (Some b) h).2).
Proof.
  intros Hprev.
  set (ws := if decide (length (words b) = 0) then allWords h else words b).
  set (g := set_CreatedAt now
              (match games h !! new_game_id b with
               | Some og => carryPlayers (players og)
                              (ReconstructGame (NewState (Int63 (rand h)).1 ws))
               | None => ReconstructGame (NewState (Int63 (rand h)).1 ws)
               end)).
  assert (Hseed : Seed g = (Int63 (rand h)).1).
  { subst g. destruct (games h !! new_game_id b); simpl; apply ReconstructGame_Seed. }
  assert (Hstale : stalePrevSeed (prev_seed b) g = true).
  { unfold stalePrevSeed. destruct (prev_seed b) as [s0|]; [|reflexivity].
    apply bool_decide_eq_true_2. rewrite Hseed. congruence. }
  assert (Hagain : new_game_id b ≠ "" → handleNewGame now' (Some b)
                     (set_games (<[new_game_id b := g]> (games h))
                                (set_rand (Int63 (rand h)).2 h))
                   = (JSONGame g, set_games (<[new_game_id b := g]> (games h))
                                    (set_rand (Int63 (rand h)).2 h))).
  { intros Hid. unfold handleNewGame. simpl. rewrite lookup_insert_eq, Hstale.
    destruct (decide (new_game_id b = "")); [contradiction|reflexivity]. }
  assert (Hfirst :
    handleNewGame now (Some b) h = (malformed_body, h) ∧ new_game_id b = "" ∨
    handleNewGame now (Some b) h = (too_few_words, h) ∧ new_game_id b ≠ "" ∧
      length ws < length colorDistribution ∧
      (∀ og, games h !! new_game_id b = Some og →
             stalePrevSeed (prev_seed b) og = false) ∨
    (∃ og, handleNewGame now (Some b) h = (JSONGame og, h) ∧ new_game_id b ≠ "" ∧
           games h !! new_game_id b = Some og ∧
           stalePrevSeed (prev_seed b) og = true) ∨
    new_game_id b ≠ "" ∧
    handleNewGame now (Some b) h
      = (JSONGame g, set_games (<[new_game_id b := g]> (games h))
                       (set_rand (Int63 (rand h)).2 h))).
  { unfold handleNewGame. fold ws. subst g.
    destruct (decide (new_game_id b = "")); [tauto|].
    destruct (games h !! new_game_id b) as [og|] eqn:Hog.
    - destruct (stalePrevSeed (prev_seed b) og) eqn:Hst.
      + right. right. left. exists og. tauto.
      + destruct (decide (length ws < length colorDistribution)).
        * right. left. split_and!; try tauto. intros og' [= <-]. exact Hst.
        * right. right. right. split; [assumption|].
          destruct (Int63 (rand h)). reflexivity.
    - destruct (decide (length ws < length colorDistribution)).
      + right. left. split_and!; try tauto. intros og' [=].
      + right. right. right. split; [assumption|].
        destruct (Int63 (rand h)). reflexivity. }
  destruct Hfirst
    as [[Hf Hid]|[(Hf & Hid & Hshort & Hog)|[(og & Hf & Hid & Hog & Hst)|[Hid Hf]]]];
    rewrite Hf; simpl.
  - unfold handleNewGame.
    destruct (decide (new_game_id b = "")); [reflexivity|contradiction].
  - unfold handleNewGame. fold ws.
    destruct (decide (new_game_id b = "")); [contradiction|].
    destruct (games h !! new_game_id b) as [og|].
    + rewrite (Hog og eq_refl).
      destruct (decide (length ws < length colorDistribution)); [reflexivity|lia].
    + destruct (decide (length ws < length colorDistribution)); [reflexivity|lia].
  - unfold handleNewGame. rewrite Hog, Hst.
    destruct (decide (new_game_id b = "")); [contradiction|reflexivity].
  - exact (Hagain Hid).
Qed.

(** ** What a call leaves alone *)

(** X10: a ping changes the server exactly as the first half of an events
    poll with the same body at the same clock does. *)
Theorem ping_same_effect_as_poll (now : Time) (req : option Body) (h : handler) :
  (handlePing now req h).2 = (handleEvents now req h).2.
Proof.
  unfold handlePing, handleEvents. destruct req as [b|]; [|reflexivity].
  destruct (decide (game_id b = "" ∨ player_id b = "")); [reflexivity|].
  destruct (games h !! game_id b) as [g|]; [|reflexivity].
  destruct (decide (seed b ≠ Seed g)); [reflexivity|].
  simpl. destruct (decide (0 < length _)); reflexivity.
Qed.

(** X11: sessions come and go in two places only.  A new-game call
    registers at most the session it names and removes none; the sweep
    registers none; every other call leaves the set of sessions as it is. *)
Theorem calls_keep_sessions (c : Call) (h : handler) :
  match c with
  | CallNewGame _ (Some b) =>
      dom (games h) ⊆ dom (games (after c h)) ∧
      dom (games (after c h)) ⊆ {[new_game_id b]} ∪ dom (games h)
  | CallSweep _ _ => dom (games (after c h)) ⊆ dom (games h)
  | _ => dom (games (after c h)) = dom (games h)
  end.
Proof.
  assert (Hput : ∀ id (g g' : Game Color), games h !! id = Some g →
                   dom (<[id := g']> (games h)) = dom (games h)).
  { intros id g g' Hg. apply dom_insert_lookup_L. rewrite Hg. eauto. }
  destruct c as [fuel|now req|now now' req|now req|now req|now req|now req| |now clock];
    simpl.
  - unfold handleIndex. destruct (indexLoop _ _ _); reflexivity.
  - clear Hput. destruct req as [b|]; [|reflexivity]. unfold handleNewGame.
    destruct (decide (new_game_id b = "")); [set_solver|].
    destruct (games h !! new_game_id b) as [og|];
      [destruct (stalePrevSeed _ og); [set_solver|]|];
      (destruct (decide (_ < _)); [set_solver|]);
      destruct (Int63 (rand h)); simpl; rewrite dom_insert_L; set_solver.
  - unfold handleGuess. destruct req as [b|]; [|reflexivity].
    case_decide; [reflexivity|].
    destruct (games h !! game_id b) as [g|] eqn:Hg; [|reflexivity].
    case_decide; [reflexivity|]. simpl. eapply Hput, Hg.
  - unfold handleEndTurn. destruct req as [b|]; [|reflexivity].
    case_decide; [reflexivity|].
    destruct (games h !! game_id b) as [g|] eqn:Hg; [|reflexivity].
    case_decide; [reflexivity|]. simpl. eapply Hput, Hg.
  - unfold handleChat. destruct req as [b|]; [|reflexivity].
    case_decide; [reflexivity|].
    destruct (games h !! game_id b) as [g|] eqn:Hg; [|reflexivity].
    case_decide; [reflexivity|]. simpl. eapply Hput, Hg.
  - unfold handleEvents. destruct req as [b|]; [|reflexivity].
    case_decide; [reflexivity|].
    destruct (games h !! game_id b) as [g|] eqn:Hg; [|reflexivity].
    case_decide; [reflexivity|]. simpl.
    case_decide; simpl; eapply Hput, Hg.
  - unfold handlePing. destruct req as [b|]; [|reflexivity].
    case_decide; [reflexivity|].
    destruct (games h !! game_id b) as [g|] eqn:Hg; [|reflexivity].
    case_decide; [reflexivity|]. simpl. eapply Hput, Hg.
  - reflexivity.
  - apply dom_imap_subseteq.
Qed.

(** X12: a request touches the session it names and no other: after a
    guess, end-turn, chat, events poll, ping or new-game call every other
    session of the registry is the game it was. *)
Theorem other_sessions_untouched (h : handler) (now now' : Time) (id : string) :
  (∀ b, id ≠ game_id b →
     games (handleGuess now now' (Some b) h).2 !! id = games h !! id ∧
     games (handleEndTurn now (Some b) h).2 !! id = games h !! id ∧
     games (handleChat now (Some b) h).2 !! id = games h !! id ∧
     games (handleEvents now (Some b) h).2 !! id = games h !! id ∧
     games (handlePing now (Some b) h).2 !! id = games h !! id) ∧
  (∀ b, id ≠ new_game_id b →
     games (handleNewGame now (Some b) h).2 !! id = games h !! id).
Proof.
  split.
  - intros b Hne.
    unfold handleGuess, handleEndTurn, handleChat, handleEvents, handlePing.
    split_and!; repeat case_match; simpl; try reflexivity;
      apply lookup_insert_ne; congruence.
  - intros b Hne. unfold handleNewGame.
    destruct (decide (new_game_id b = "")); [reflexivity|].
    destruct (games h !! new_game_id b) as [og|];
      [destruct (stalePrevSeed _ og); [reflexivity|]|];
      (destruct (decide (_ < _)); [reflexivity|]);
      destruct (Int63 (rand h)); simpl; apply lookup_insert_ne; congruence.
Qed.

(** ** Statistics *)

(** X13: [/stats] answers with the number of sessions that have at least
    one player and with the number of players summed over all sessions;
    there are at most as many such sessions as sessions, and at most as
    many as players. *)
Theorem stats_counts (h : handler) :
  ∃ a p : Z,
    handleStats h = JSONStats a p ∧
    a = Z.of_nat (size (filter (λ kv, players kv.2 ≠ ∅) (games h))) ∧
    p = Z.of_nat (sum_list_with (λ kv, size (players kv.2)) (map_to_list (games h))) ∧
    (0 ≤ a ≤ p)%Z ∧ (a ≤ Z.of_nat (size (games h)))%Z.
Proof.
  unfold handleStats.
  set (f := λ (_ : string) (g : Game Color) '(gs, ps),
              let n := Z.of_nat (size (players g)) in
              ((if bool_decide (0 < n)%Z then gs + 1 else gs)%Z, (ps + n)%Z)).
  assert (Hfold :
    map_fold f (0%Z, 0%Z) (games h)
    = (Z.of_nat (size (filter (λ kv : string * Game Color, players kv.2 ≠ ∅) (games h))),
       Z.of_nat (sum_list_with (λ kv : string * Game Color, size (players kv.2))
                   (map_to_list (games h)))) ∧
    size (filter (λ kv : string * Game Color, players kv.2 ≠ ∅) (games h))
      ≤ sum_list_with (λ kv : string * Game Color, size (players kv.2))
          (map_to_list (games h))).
  { apply (map_fold_weak_ind
             (λ r m,
                r = (Z.of_nat (size (filter (λ kv : string * Game Color,
                                               players kv.2 ≠ ∅) m)),
                     Z.of_nat (sum_list_with (λ kv : string * Game Color,
                                                size (players kv.2))
                                 (map_to_list m))) ∧
                size (filter (λ kv : string * Game Color, players kv.2 ≠ ∅) m)
                  ≤ sum_list_with (λ kv : string * Game Color, size (players kv.2))
                      (map_to_list m))).
    - rewrite map_filter_empty, map_to_list_empty. split; [reflexivity|].
      rewrite map_size_empty. simpl. lia.
    - intros id g m r Hnone [-> Hle].
      rewrite (map_to_list_insert m id g Hnone). simpl.
      destruct (decide (players g = ∅)) as [Hno|Hsome].
      + rewrite map_filter_insert_False by (simpl; tauto).
        rewrite delete_id by exact Hnone.
        rewrite Hno, map_size_empty. simpl. split; [|lia].
        f_equal; lia.
      + rewrite map_filter_insert_True by (simpl; exact Hsome).
        rewrite map_size_insert_None
          by (apply map_lookup_filter_None; left; exact Hnone).
        assert (0 < size (players g)).
        { destruct (size (players g)) eqn:Hsz; [|lia].
          apply map_size_empty_iff in Hsz. contradiction. }
        rewrite bool_decide_eq_true_2 by lia. split; [|lia].
        f_equal; lia. }
  destruct Hfold as [Hfold Hle]. fold f. rewrite Hfold.
  eexists _, _. split_and!; try reflexivity; try lia.
  pose proof (map_subseteq_size _ _
                (map_filter_subseteq (λ kv : string * Game Color, players kv.2 ≠ ∅)
                   (games h))).
  lia.
Qed.

(** ** Acceptance *)

(** X14: an action is acknowledged exactly when its required fields are
    present, its session is registered and its seed is the seed of the
    live game: for a ping the id of the session and of the player; for a
    guess and an end-turn also a team other than 0; for a chat also a
    message. *)
Theorem acknowledged_iff (h : handler) (b : Body) (now now' : Time) :
  let live_seed := ∃ g, games h !! game_id b = Some g ∧ seed b = Seed g in
  ((handlePing now (Some b) h).1 = status_ok ↔
     game_id b ≠ "" ∧ player_id b ≠ "" ∧ live_seed) ∧
  ((handleGuess now now' (Some b) h).1 = status_ok ↔
     game_id b ≠ "" ∧ player_id b ≠ "" ∧ team b ≠ 0%Z ∧ live_seed) ∧
  ((handleEndTurn now (Some b) h).1 = status_ok ↔
     game_id b ≠ "" ∧ player_id b ≠ "" ∧ team b ≠ 0%Z ∧ live_seed) ∧
  ((handleChat now (Some b) h).1 = status_ok ↔
     game_id b ≠ "" ∧ player_id b ≠ "" ∧ team b ≠ 0%Z ∧ message b ≠ "" ∧ live_seed).
Proof.
  intros live_seed. subst live_seed.
  unfold handlePing, handleGuess, handleEndTurn, handleChat.
  split_and!.
  all: case_decide as Hbad;
    [split; [discriminate|tauto]|].
  all: destruct (games h !! game_id b) as [g|];
    [|split; [discriminate|intros Hc;
       repeat match type of Hc with _ ∧ _ => destruct Hc as [_ Hc] end;
       destruct Hc as (g' & Hg' & Hs'); congruence]].
  all: case_decide as Hseed; simpl;
    [split; [discriminate|intros Hc;
       repeat match type of Hc with _ ∧ _ => destruct Hc as [_ Hc] end;
       destruct Hc as (g' & Hg' & Hs'); congruence]|].
  all: split; [intros _|reflexivity].
  all: split_and!; try tauto; exists g; split; [reflexivity|].
  all: destruct (decide (seed b = Seed g)); tauto.
Qed.

(** X15: an error that is answered without a wait never comes with a
    change: whenever new-game, guess, end-turn, chat or ping answers with
    [writeError], and whenever an events poll does so before its wait, the
    server is as it was.  The one other error is the [not_found] of a poll
    that was woken by its channel and finds its session gone; it comes
    after the poll has marked the player seen (see
    [poll_waits_on_nothing_new]). *)
Theorem immediate_errors_leave_server_unchanged (h : handler) (now now' : Time)
    (code msg : string) (status : Z) :
  (∀ req, (handleNewGame now req h).1 = JSONError code msg status →
          (handleNewGame now req h).2 = h) ∧
  (∀ req, (handleGuess now now' req h).1 = JSONError code msg status →
          (handleGuess now now' req h).2 = h) ∧
  (∀ req, (handleEndTurn now req h).1 = JSONError code msg status →
          (handleEndTurn now req h).2 = h) ∧
  (∀ req, (handleChat now req h).1 = JSONError code msg status →
          (handleChat now req h).2 = h) ∧
  (∀ req, (handleEvents now req h).1 = Respond (JSONError code msg status) →
          (handleEvents now req h).2 = h) ∧
  (∀ req, (handlePing now req h).1 = JSONError code msg status →
          (handlePing now req h).2 = h) ∧
  (∀ w b held, handleEventsWake w b held h = JSONError code msg status →
          w = Signalled ∧ games h !! game_id b = None ∧
          handleEventsWake w b held h = not_found).
Proof.
  split_and!.
  - intros req. unfold handleNewGame. destruct req as [b|]; [|reflexivity].
    destruct (decide (new_game_id b = "")); [reflexivity|].
    destruct (games h !! new_game_id b) as [og|];
      [destruct (stalePrevSeed _ og); [reflexivity|]|];
      (destruct (decide (_ < _)); [reflexivity|]);
      destruct (Int63 (rand h)); simpl; discriminate.
  - intros req. unfold handleGuess. repeat case_match; simpl; try reflexivity; discriminate.
  - intros req. unfold handleEndTurn. repeat case_match; simpl; try reflexivity; discriminate.
  - intros req. unfold handleChat. repeat case_match; simpl; try reflexivity; discriminate.
  - intros req. unfold handleEvents. repeat case_match; simpl; try reflexivity; discriminate.
  - intros req. unfold handlePing. repeat case_match; simpl; try reflexivity; discriminate.
  - intros w b held. unfold handleEventsWake.
    destruct w; try discriminate.
    destruct (games h !! game_id b); [discriminate|].
    intros _. split_and!; reflexivity.
Qed.

(** ** The long poll *)

(** X16: an events poll waits only on a registered session whose seed it
    carries, after it has marked the player seen and found no event above
    [last_event]; what it holds is the seed of that game and the channel
    that was read together with the empty list.  When the wait ends by the
    timer or by the client, the answer is the held seed, which is the seed
    of the request, with no event, whatever has become of the session. *)
Theorem poll_waits_on_nothing_new (h h' later : handler) (b : Body) (now : Time)
    (held : Z) (ch : nat) :
  handleEvents now (Some b) h = (Wait held ch, h') →
  ∃ g, games h !! game_id b = Some g ∧
       held = Seed g ∧ seed b = Seed g ∧
       let g1 := markSeen (player_id b) (name b) (team b) now g in
       eventsSince (last_event b) g1 = ([], ch) ∧
       h' = set_games (<[game_id b := g1]> (games h)) h ∧
       handleEventsWake TimedOut b held later = JSONUpdate (seed b) [] ∧
       handleEventsWake Cancelled b held later = JSONUpdate (seed b) [].
Proof.
  unfold handleEvents. case_decide; [discriminate|].
  destruct (games h !! game_id b) as [g|]; [|discriminate].
  destruct (decide (seed b ≠ Seed g)) as [|Hseed].
  { destruct (eventsSince _ _). discriminate. }
  assert (Heq : seed b = Seed g) by (destruct (decide (seed b = Seed g)); tauto).
  destruct (eventsSince (last_event b) (markSeen _ _ _ _ g)) as [evts ch'] eqn:Hsince.
  destruct (decide (0 < length evts)) as [|Hlen]; [discriminate|].
  intros [= <- <- <-]. exists g. split_and!; try reflexivity; try assumption.
  - simpl. rewrite Hsince. f_equal. destruct evts; [reflexivity|simpl in Hlen; lia].
  - simpl. rewrite Heq. reflexivity.
  - simpl. rewrite Heq. reflexivity.
Qed.

End MoreFacts.

(** ** The concrete server again *)

Section MoreScenarioFacts.
Import Scenario.

Lemma allWords_sorted_union_witness :
  NoDup (allWords h2) ∧ ("River" ∈ allWords h2 ↔
                          ∃ nm l, wordLists h2 !! nm = Some l ∧ "River" ∈ l).
Proof.
  destruct (allWords_sorted_union h2 reachable_h2) as (_ & Hnd & Hmem).
  split; [exact Hnd | exact (Hmem "River")].
Defined.

Lemma allWords_order_independent_witness :
  allWords (Handler {[ "x" := ["b"; "a"] ]} 1 : handler Z Color)
    = allWords (Handler {[ "p" := ["a"]; "q" := ["b"; "a"; "b"] ]} 2 : handler Z Color).
Proof.
  apply allWords_order_independent. intros w. split.
  - intros (nm & l & Hl & Hw).
    apply elem_of_map_to_list, list_elem_of_In in Hl. vm_compute in Hl.
    destruct Hl as [[= <- <-]|[]].
    exists "q", ["b"; "a"; "b"]. split; [vm_compute; reflexivity|].
    apply list_elem_of_In. apply list_elem_of_In in Hw. simpl in *. tauto.
  - intros (nm & l & Hl & Hw).
    exists "x", ["b"; "a"]. split; [vm_compute; reflexivity|].
    apply elem_of_map_to_list, list_elem_of_In in Hl. vm_compute in Hl.
    destruct Hl as [[= <- <-]|[[= <- <-]|[]]];
      apply list_elem_of_In; apply list_elem_of_In in Hw; simpl in *; tauto.
Defined.

Lemma index_panic_holds_lock_witness :
  fate (CallIndex 1) wordless = Panics ∧
  fate (CallIndex 1) (serve (CallIndex 1) wordless) = Blocks ∧
  fate (CallPing 5 None) (serve (CallIndex 1) wordless) = Returns.
Proof.
  destruct (index_panic_holds_lock 0 wordless (reachable_init ∅ 0) eq_refl)
    as [Hiff Hthen].
  assert (Hpanic : fate (CallIndex 1) wordless = Panics).
  { apply Hiff. intros nm l Hl. simpl in Hl. rewrite lookup_empty in Hl.
    discriminate. }
  split_and!.
  - exact Hpanic.
  - exact (proj1 (proj1 (Hthen Hpanic (CallIndex 1)) eq_refl)).
  - exact (proj1 (proj2 (Hthen Hpanic (CallPing 5 None)) eq_refl)).
Defined.

Lemma no_session_with_empty_id_witness : games h2 !! "" = None.
Proof. exact (no_session_with_empty_id h2 reachable_h2). Defined.

Lemma unknown_session_not_found_witness :
  handlePing 400 (act "beta" 7 "p1" 1 0 "" 0) h1 = (not_found, h1).
Proof.
  refine (proj1 (proj2 (unknown_session_not_found h1
                          (mkBody "beta" 7 "p1" "Ann" 1 0 "" 0) 400 400 0 _ _ _))).
  - vm_compute. reflexivity.
  - discriminate.
  - discriminate.
Defined.

Lemma create_registers_game_witness :
  games (handleNewGame 500 (create "beta" [] None) h1).2 !! "beta"
    = Some (set_CreatedAt 500 (ReconstructGame (NewState (Int63 (rand h1)).1 (allWords h1)))).
Proof.
  assert (Hwords : length (colorDistribution (Color := Color)) ≤ length (allWords h1))
    by (vm_compute; lia).
  refine (proj1 (proj2 (create_registers_game h1 500 500 (mkNewGameBody "beta" [] None)
                          _ _ Hwords))).
  - vm_compute. reflexivity.
  - discriminate.
Defined.

Lemma repeated_create_idempotent_witness :
  handleNewGame 700 (create "beta" [] None) (handleNewGame 500 (create "beta" [] None) h1).2
    = ((handleNewGame 500 (create "beta" [] None) h1).1,
       (handleNewGame 500 (create "beta" [] None) h1).2).
Proof.
  apply (repeated_create_idempotent h1 500 700 (mkNewGameBody "beta" [] None)).
  discriminate.
Defined.

Lemma poll_waits_on_nothing_new_witness :
  ∃ g, games h2 !! "alpha" = Some g ∧ Seed g = 7%Z ∧
       handleEventsWake TimedOut (mkBody "alpha" 7 "p2" "Bob" 0 0 "" 2) 7 h0
         = JSONUpdate 7 [].
Proof.
  destruct (poll_waits_on_nothing_new h2
              (handleEvents 400 (Some (mkBody "alpha" 7 "p2" "Bob" 0 0 "" 2)) h2).2 h0
              (mkBody "alpha" 7 "p2" "Bob" 0 0 "" 2) 400 7 2)
    as (g & Hg & Hheld & _ & _ & _ & Htimer & _).
  - vm_compute. reflexivity.
  - exists g. split_and!; [exact Hg | symmetry; exact Hheld | exact Htimer].
Defined.

End MoreScenarioFacts.
